(** * The request gatekeeper of main.ts: a shallow embedding

    The program is the TypeScript module that starts with
    [import { match } from "ts-pattern"]: a pay-per-call gatekeeper in front of
    a caller-supplied handler.  It resolves the user state, enforces a free
    tier, charges credits, caches response bodies in Deno KV and composes the
    response.

    Conventions of the embedding.
    - JavaScript strings are [string]: sequences of code units below 256.
      U+2028 and U+2029, the two line terminators above that range, are
      outside the modelled alphabet.
    - JavaScript numbers that the program uses as counters, credits, instants
      and durations are [Z] (milliseconds for instants, as [Date.now()]).
    - [Result<T>] is [Result T]; a thrown store exception is the [err] that
      the surrounding try/catch makes of it.
    - Asynchronous code is sequential state passing over the store [Kv]; a
      promise that is started and never awaited still runs, and its store
      operations are part of the state passed on.
    - An exception that no try/catch of the program catches makes the call
      settle as [threw]. *)

From Stdlib Require Import ZArith Ascii String List Lia Permutation Sorted.
From stdpp Require Import base option list gmap strings pretty.

Local Open Scope string_scope.
Local Open Scope Z_scope.

(** ** JavaScript string primitives used by the program *)

Module Js.

(** [s.startsWith(p)], returning what follows the prefix. *)
Fixpoint strip_prefix (p s : string) : option string :=
  match p, s with
  | EmptyString, _ => Some s
  | String a p', String b s' => if Ascii.eqb a b then strip_prefix p' s' else None
  | String _ _, EmptyString => None
  end.

(** [s.includes(sub)]. *)
Fixpoint includes (s sub : string) : bool :=
  match strip_prefix sub s with
  | Some _ => true
  | None => match s with
            | EmptyString => false
            | String _ r => includes r sub
            end
  end.

(** Line terminators of the regular-expression grammar, within the alphabet:
    line feed and carriage return.  [.] matches every other code unit. *)
Definition is_line_terminator (c : ascii) : bool :=
  Ascii.eqb c "010"%char || Ascii.eqb c "013"%char.

(** With the [m] flag, [^] matches at the start of the input and after a
    line terminator. *)
Definition at_line_start (prev : option ascii) : bool :=
  match prev with
  | None => true
  | Some c => is_line_terminator c
  end.

(** The greedy dot-star group: the longest run of code units that are not line
    terminators. *)
Fixpoint dot_star (s : string) : string :=
  match s with
  | EmptyString => EmptyString
  | String c r => if is_line_terminator c then EmptyString else String c (dot_star r)
  end.

(** The lazy dot-star group followed by the literal [delim]: the shortest run of
    non-terminators after which [delim] stands, if there is one. *)
Fixpoint lazy_until (delim s : string) : option string :=
  match strip_prefix delim s with
  | Some _ => Some EmptyString
  | None =>
      match s with
      | EmptyString => None
      | String c r =>
          if is_line_terminator c then None
          else option_map (String c) (lazy_until delim r)
      end
  end.

(** A pattern tried at one position: given the code unit before the position
    and the input from the position on, the replacement text and the number
    of code units the match consumes. *)
Definition Matcher : Type := option ascii -> string -> option (string * nat).

(** [s.replace(/pattern/g, ...)] for a pattern that never matches the empty
    string: scan left to right; at a match emit the replacement and resume
    after the match; otherwise copy one code unit. [skip] counts the code
    units of the current match still to be consumed. *)
Fixpoint replace_global (m : Matcher) (prev : option ascii) (skip : nat)
         (s : string) : string :=
  match s with
  | EmptyString => EmptyString
  | String c r =>
      match skip with
      | S k => replace_global m (Some c) k r
      | O =>
          match m prev s with
          | Some (out, n) => out +:+ replace_global m (Some c) (Nat.pred n) r
          | None => String c (replace_global m (Some c) O r)
          end
      end
  end.

Definition replace_all (m : Matcher) (s : string) : string :=
  replace_global m None O s.

(** The pattern [^MARKER] followed by a greedy dot-star group, flags [gm],
    replaced by [<TAG>$1</TAG>]. *)
Definition heading (marker tag : string) : Matcher := fun prev s =>
  if at_line_start prev then
    match strip_prefix marker s with
    | Some rest =>
        let cap := dot_star rest in
        Some ("<" +:+ tag +:+ ">" +:+ cap +:+ "</" +:+ tag +:+ ">",
              (String.length marker + String.length cap)%nat)
    | None => None
    end
  else None.

(** The pattern [DELIM], a lazy dot-star group, [DELIM], flag [g], replaced
    by [<TAG>$1</TAG>]. *)
Definition delimited (delim tag : string) : Matcher := fun _ s =>
  match strip_prefix delim s with
  | Some rest =>
      match lazy_until delim rest with
      | Some cap =>
          Some ("<" +:+ tag +:+ ">" +:+ cap +:+ "</" +:+ tag +:+ ">",
                (String.length delim + String.length cap + String.length delim)%nat)
      | None => None
      end
  | None => None
  end.

(** [/\n/g] replaced by [<br>]. *)
Definition newline : Matcher := fun _ s =>
  match s with
  | String c _ => if Ascii.eqb c "010"%char then Some ("<br>", 1%nat) else None
  | EmptyString => None
  end.

(** [s.replace(pat, rep)] with a string pattern: the first occurrence only. *)
Fixpoint replace_first (pat rep s : string) : string :=
  match strip_prefix pat s with
  | Some rest => rep +:+ rest
  | None =>
      match s with
      | EmptyString => EmptyString
      | String c r => String c (replace_first pat rep r)
      end
  end.

(** What follows the last occurrence of [d] in [s], if [d] occurs. *)
Fixpoint after_last (d : ascii) (s : string) : option string :=
  match s with
  | EmptyString => None
  | String c r =>
      match after_last d r with
      | Some t => Some t
      | None => if Ascii.eqb c d then Some r else None
      end
  end.

(** [s.split('.').pop()]: the array is never empty, its last element is the
    text after the last dot, or all of [s] when it has no dot. *)
Definition split_dot_pop (s : string) : string :=
  default s (after_last "."%char s).

(** [toLowerCase] on one code unit of the alphabet: A-Z and the Latin-1
    capitals. *)
Definition lower_ascii (c : ascii) : ascii :=
  let n := nat_of_ascii c in
  if ((65 <=? n) && (n <=? 90) || (192 <=? n) && (n <=? 214)
      || (216 <=? n) && (n <=? 222))%nat
  then ascii_of_nat (n + 32) else c.

Fixpoint toLowerCase (s : string) : string :=
  match s with
  | EmptyString => EmptyString
  | String c r => String (lower_ascii c) (toLowerCase r)
  end.

(** [parts.join(sep)]. *)
Fixpoint join (sep : string) (parts : list string) : string :=
  match parts with
  | [] => EmptyString
  | [x] => x
  | x :: rest => x +:+ sep +:+ join sep rest
  end.

(** One insertion step of a stable sort: [x] stood before every element of
    [l] in the input, so it goes before the first element it does not
    compare greater than. *)
Fixpoint sort_insert {A : Type} (cmp : A -> A -> Z) (x : A) (l : list A) : list A :=
  match l with
  | [] => [x]
  | y :: l' => if cmp x y <=? 0 then x :: y :: l' else y :: sort_insert cmp x l'
  end.

(** [Array.prototype.sort(cmp)] is stable (ECMAScript 2019); for a consistent
    comparator its result is the stable sorted arrangement, computed here by
    insertion. *)
Definition sort {A : Type} (cmp : A -> A -> Z) (l : list A) : list A :=
  foldr (sort_insert cmp) [] l.

(** JavaScript truthiness, per type of the value tested. *)
Class Truthy (T : Type) := truthy : T -> bool.
#[export] Instance truthy_string : Truthy string :=
  fun s => match s with EmptyString => false | String _ _ => true end.
#[export] Instance truthy_number : Truthy Z := fun n => negb (n =? 0).
#[export] Instance truthy_boolean : Truthy bool := fun b => b.
(** [T | null] and [T | undefined]. *)
#[export] Instance truthy_nullable {T : Type} `{Truthy T} : Truthy (option T) :=
  fun o => match o with None => false | Some v => truthy v end.

(** [String.prototype.localeCompare]: the collation of the host's locale
    data is not part of the program; it is taken as given. *)
Class Collator := localeCompare : string -> string -> Z.


End Js.

Import Js.

(** ** Types *)

(** A JavaScript [Error], by its message. *)
Record Error := mkError { message : string }.

(** [`${error}`]: [Error.prototype.toString]. *)
Definition error_to_string (e : Error) : string :=
  match message e with
  | EmptyString => "Error"
  | m => "Error: " +:+ m
  end.

Inductive Result (T : Type) :=
  | ok (value : T)
  | err (error : Error).
Arguments ok {T} value.
Arguments err {T} error.

Definition isOk {T} (r : Result T) : bool := match r with ok _ => true | err _ => false end.
Definition isErr {T} (r : Result T) : bool := match r with ok _ => false | err _ => true end.

Inductive ResponseFormat := json | html | markdown.

Definition format_name (f : ResponseFormat) : string :=
  match f with json => "json" | html => "html" | markdown => "markdown" end.

Record StripeUser := mkUser {
  access_token : string;
  balance : Z;
  name : option string;
  email : option string;
  verified_email : option string;
  verified_user_access_token : option string;
  card_fingerprint : option string;
  client_reference_id : option string
}.

(** [{ ...user, balance: b }]. *)
Definition with_balance (user : StripeUser) (b : Z) : StripeUser :=
  mkUser (access_token user) b (name user) (email user) (verified_email user)
         (verified_user_access_token user) (card_fingerprint user)
         (client_reference_id user).

Record RateLimitData := mkRateLimitData { count : Z; resetTime : Z }.

(** Objects are truthy. *)
#[export] Instance truthy_user : Truthy StripeUser := fun _ => true.
#[export] Instance truthy_ratelimit : Truthy RateLimitData := fun _ => true.

Inductive UserState :=
  | anonymous (clientId : string)
  | authenticated (user : StripeUser)
  | insufficient_balance (user : StripeUser).

Inductive RateLimitResult :=
  | allowed (remaining : Z)
  | exceeded (resetTime : Z).

Inductive CacheResult (T : Type) :=
  | hit (value : T)
  | miss.
Arguments hit {T} value.
Arguments miss {T}.

Inductive CacheStatus := HIT | MISS.

Definition cache_status_name (c : CacheStatus) : string :=
  match c with HIT => "HIT" | MISS => "MISS" end.

(** ** The key-value store

    [Deno.Kv] as the program uses it: every key is a one-element array holding
    a string.  The program reads three families of keys, each through
    [kv.get<V>] at one value type [V]: accounts under [user:TOKEN],
    rate-limit records under [ratelimit:ID], and cached bodies, of type [T],
    under the cache key.  The prefixes [user:], [ratelimit:] and [cache:v]
    keep the families apart, so the store is three typed maps, each indexed by
    the full key.  The store keeps the operations attempted on it, and
    [kv_fault] says which attempt throws, given the attempts before it.
    Expiry of an entry written with [expireIn] is the store's own business and
    is not modelled; the option is kept in the log. *)

Inductive KvOp :=
  | KvGet (key : string)
  | KvSet (key : string) (expireIn : option Z).

Record Kv (T : Type) := mkKv {
  kv_users : gmap string StripeUser;
  kv_ratelimits : gmap string RateLimitData;
  kv_cache : gmap string T;
  kv_log : list KvOp;
  kv_fault : list KvOp -> KvOp -> option Error
}.
Arguments mkKv {T}.
Arguments kv_users {T}.
Arguments kv_ratelimits {T}.
Arguments kv_cache {T}.
Arguments kv_log {T}.
Arguments kv_fault {T}.

(** A family of keys with its value type: how to read it off the store and how
    to write it back. *)
Record Family (T V : Type) := mkFamily {
  fam_read : Kv T -> gmap string V;
  fam_write : gmap string V -> Kv T -> Kv T
}.
Arguments fam_read {T V}.
Arguments fam_write {T V}.

Definition Users {T} : Family T StripeUser :=
  mkFamily T _ kv_users
    (fun m kv => mkKv m (kv_ratelimits kv) (kv_cache kv) (kv_log kv) (kv_fault kv)).
Definition RateLimits {T} : Family T RateLimitData :=
  mkFamily T _ kv_ratelimits
    (fun m kv => mkKv (kv_users kv) m (kv_cache kv) (kv_log kv) (kv_fault kv)).
Definition Cache {T} : Family T T :=
  mkFamily T _ kv_cache
    (fun m kv => mkKv (kv_users kv) (kv_ratelimits kv) m (kv_log kv) (kv_fault kv)).

(** The store after one more attempted operation. *)
Definition kv_attempted {T} (op : KvOp) (kv : Kv T) : Kv T :=
  mkKv (kv_users kv) (kv_ratelimits kv) (kv_cache kv) (kv_log kv ++ [op]) (kv_fault kv).

(** [await kv.get<V>([key])] inside try/catch: the entry's value ([None] for
    JavaScript's null), or the exception as [err]. *)
Definition kv_get {T V} (f : Family T V) (key : string) (kv : Kv T)
  : Result (option V) * Kv T :=
  let op := KvGet key in
  match kv_fault kv (kv_log kv) op with
  | Some e => (err e, kv_attempted op kv)
  | None => (ok (fam_read f kv !! key), kv_attempted op kv)
  end.

(** [await kv.set([key], value, { expireIn })] inside try/catch. *)
Definition kv_set {T V} (f : Family T V) (key : string) (value : V)
           (expireIn : option Z) (kv : Kv T) : Result unit * Kv T :=
  let op := KvSet key expireIn in
  match kv_fault kv (kv_log kv) op with
  | Some e => (err e, kv_attempted op kv)
  | None => (ok tt, kv_attempted op (fam_write f (<[key := value]> (fam_read f kv)) kv))
  end.

(** ** Requests, responses, configuration *)

(** A [Request] as the program reads it: the method, the URL already parsed by
    the platform into its pathname and the entries of its query, in order, and
    the two headers the program asks for. *)
Record Request := mkRequest {
  method : string;
  url_pathname : string;
  url_searchParams : list (string * string);
  header_authorization : option string;
  header_accept : option string
}.

Record RequestData := mkRequestData {
  pathname : string;
  searchParams : list (string * string);
  authToken : option string;
  acceptHeader : string
}.

(** The object passed to [JSON.stringify] by the payment-required response;
    the serialisation itself is left symbolic. *)
Record PaymentRequiredBody := mkPaymentRequiredBody {
  pr_error : string;
  pr_message : string;
  pr_payment_link : option string;
  pr_status : Z
}.

Inductive Body :=
  | BodyNull
  | BodyText (text : string)
  | BodyJson (obj : PaymentRequiredBody).

Record Response := mkResponse {
  status : Z;
  headers : list (string * string);
  body : Body
}.

(** [headers[name]] of an object literal: the last binding of the name. *)
Definition header (name : string) (r : Response) : option string :=
  snd <$> last (filter (fun kv => bool_decide (fst kv = name)) (headers r)).

(** What the program throws outside any try/catch: the [TypeError] of calling
    a property that is not a function.  The text of its message is the
    engine's. *)
Inductive Thrown := not_a_function (property : string).

(** How the promise of [handleRequest] settles: it resolves with a response,
    or it rejects with what the function threw. *)
Inductive Settled :=
  | returned (response : Response)
  | threw (error : Thrown).

Record Context := mkContext {
  ctx_user : option StripeUser;
  ctx_env : gmap string string
}.

(** [config.fetch] is the caller's handler.  It receives the store through the
    context and may use it; it answers with the text of a response, or
    throws. *)
Record Config := mkConfig {
  version : Z;
  priceCredit : Z;
  freeRatelimit : Z;
  freeRateLimitResetSeconds : Z;
  cacheSeconds : option Z;
  fetch : Request -> Context -> Kv string -> Result string * Kv string
}.

(** ** Pure functions *)

Definition parseRequestData (request : Request) : RequestData :=
  let authHeader := header_authorization request in
  let stripped := replace_first "Bearer " "" <$> authHeader in
  mkRequestData
    (url_pathname request)
    (url_searchParams request)
    (if truthy stripped then stripped else None)
    (let accept := header_accept request in if truthy accept then default "" accept else "").

Definition getResponseFormat (requestData : RequestData) : ResponseFormat :=
  let ext := toLowerCase (split_dot_pop (pathname requestData)) in
  if String.eqb ext "html" then html
  else if String.eqb ext "md" || String.eqb ext "markdown" then markdown
  else if includes (acceptHeader requestData) "text/html" then html
  else if includes (acceptHeader requestData) "text/markdown" then markdown
  else json.

Definition createCacheKey `{Collator} (config : Config)
           (pathname : string) (searchParams : list (string * string))
           (format : ResponseFormat) : string :=
  let sortedParams :=
    join "&"
      (map (fun '(key, value) => key +:+ "=" +:+ value)
         (sort (fun a b => localeCompare (fst a) (fst b)) searchParams)) in
  "cache:v" +:+ pretty (version config) +:+ ":" +:+ pathname +:+ ":"
    +:+ sortedParams +:+ ":" +:+ format_name format.

Definition markdownToHtml (md : string) : string :=
  replace_all newline
    (replace_all (delimited "*" "em")
      (replace_all (delimited "**" "strong")
        (replace_all (heading "### " "h3")
          (replace_all (heading "## " "h2")
            (replace_all (heading "# " "h1") md))))).

Definition createCorsHeaders : list (string * string) :=
  [ ("Access-Control-Allow-Origin", "*");
    ("Access-Control-Allow-Methods", "GET, POST, PUT, DELETE, OPTIONS");
    ("Access-Control-Allow-Headers", "Content-Type, Authorization") ].

(** ** Effect functions *)

Section Store.
Context {T : Type}.

Definition getUserByToken (accessToken : string) (kv : Kv T)
  : Result (option StripeUser) * Kv T :=
  kv_get Users ("user:" +:+ accessToken) kv.

(** [now] is the value of [Date.now()]. *)
Definition getRateLimitData (config : Config) (now : Z) (userId : string) (kv : Kv T)
  : Result RateLimitData * Kv T :=
  let key := "ratelimit:" +:+ userId in
  let '(result, kv1) := kv_get RateLimits key kv in
  match result with
  | err e => (err e, kv1)
  | ok value =>
      let currentTime := now in
      let newResetTime := currentTime + freeRateLimitResetSeconds config * 1000 in
      match value with
      | None => (ok (mkRateLimitData 0 newResetTime), kv1)
      | Some data =>
          if negb (truthy data) || (currentTime >? resetTime data)
          then (ok (mkRateLimitData 0 newResetTime), kv1)
          else (ok data, kv1)
      end
  end.

Definition updateRateLimit (userId : string) (rateLimitData : RateLimitData) (kv : Kv T)
  : Result unit * Kv T :=
  let key := "ratelimit:" +:+ userId in
  kv_set RateLimits key rateLimitData None kv.

Definition checkFreeRateLimit (config : Config) (now : Z) (clientId : string) (kv : Kv T)
  : Result RateLimitResult * Kv T :=
  let '(rateLimitResult, kv1) := getRateLimitData config now clientId kv in
  match rateLimitResult with
  | err e => (err e, kv1)
  | ok rateLimitData =>
      if count rateLimitData >=? freeRatelimit config
      then (ok (exceeded (resetTime rateLimitData)), kv1)
      else
        let updatedData :=
          mkRateLimitData (count rateLimitData + 1) (resetTime rateLimitData) in
        let '(updateResult, kv2) := updateRateLimit clientId updatedData kv1 in
        match updateResult with
        | err e => (err e, kv2)
        | ok _ => (ok (allowed (freeRatelimit config - count updatedData)), kv2)
        end
  end.

Definition checkRateLimit (config : Config) (now : Z) (userState : UserState) (kv : Kv T)
  : Result RateLimitResult * Kv T :=
  match userState with
  | authenticated user =>
      if balance user >? 0 then (ok (allowed (balance user)), kv)
      else checkFreeRateLimit config now (access_token user) kv
  | anonymous clientId => checkFreeRateLimit config now clientId kv
  | insufficient_balance user => checkFreeRateLimit config now (access_token user) kv
  end.

Definition chargeUser (userId : string) (amount : Z) (kv : Kv T)
  : Result StripeUser * Kv T :=
  let '(userResult, kv1) := getUserByToken userId kv in
  match userResult with
  | err e => (err e, kv1)
  | ok value =>
      match value with
      | None => (err (mkError "User not found"), kv1)
      | Some user =>
          if negb (truthy user) then (err (mkError "User not found"), kv1)
          else if balance user <? amount
          then (err (mkError "Insufficient balance"), kv1)
          else
            let updatedUser := with_balance user (balance user - amount) in
            let '(written, kv2) :=
              kv_set Users ("user:" +:+ userId) updatedUser None kv1 in
            match written with
            | ok _ => (ok updatedUser, kv2)
            | err e => (err e, kv2)
            end
      end
  end.

Definition getFromCache `{Truthy T} (cacheKey : string) (kv : Kv T)
  : Result (CacheResult T) * Kv T :=
  let '(result, kv1) := kv_get Cache cacheKey kv in
  match result with
  | err e => (err e, kv1)
  | ok value =>
      match value with
      | Some v => if truthy v then (ok (hit v), kv1) else (ok miss, kv1)
      | None => (ok miss, kv1)
      end
  end.

Definition determineUserState (requestData : RequestData) (kv : Kv T)
  : UserState * Kv T :=
  match authToken requestData with
  | None => (anonymous "anonymous", kv)
  | Some token =>
      if negb (truthy token) then (anonymous "anonymous", kv)
      else
        let '(userResult, kv1) := getUserByToken token kv in
        match userResult with
        | err _ => (anonymous token, kv1)
        | ok None => (anonymous token, kv1)
        | ok (Some user) =>
            if negb (truthy user) then (anonymous token, kv1)
            else if balance user <=? 0 then (insufficient_balance user, kv1)
            else (authenticated user, kv1)
        end
  end.

End Store.

Definition setCache (config : Config) (cacheKey : string) (value : string) (kv : Kv string)
  : Result unit * Kv string :=
  match cacheSeconds config with
  | None => (ok tt, kv)
  | Some seconds =>
      if negb (truthy seconds) || (seconds <=? 0) then (ok tt, kv)
      else kv_set Cache cacheKey value (Some (seconds * 1000)) kv
  end.

(** ** Response creators *)

Definition createPaymentRequiredResponse (env : gmap string string) (message : string)
  : Response :=
  let responseBody :=
    mkPaymentRequiredBody "Payment Required" message (env !! "STRIPE_PAYMENT_LINK") 402 in
  mkResponse 402
    (("Content-Type", "application/json") :: createCorsHeaders)
    (BodyJson responseBody).

Definition createSuccessResponse (responseText : string) (format : ResponseFormat)
           (cacheStatus : CacheStatus) : Response :=
  let contentType :=
    match format with
    | html => "text/html"
    | markdown => "text/markdown"
    | json => "application/json"
    end in
  let formattedText :=
    match format with
    | html => markdownToHtml responseText
    | _ => responseText
    end in
  mkResponse 200
    (("Content-Type", contentType) :: ("X-Cache", cache_status_name cacheStatus)
       :: createCorsHeaders)
    (BodyText formattedText).

Definition createOptionsResponse : Response :=
  mkResponse 200 createCorsHeaders BodyNull.

(** ** The request handler *)

(** [handleRequest] is one function in the source.  It is split here at the
    cache lookup: [afterCacheMiss] is everything that follows it, and
    [chargeStep] the match on the user state in it.

    That match is the expression
    [await match(userState).with({ kind: 'authenticated' }, f).otherwise(g).exhaustive()].
    In ts-pattern [otherwise] ends the match and returns the value of the arm
    that applies, here a promise: that of the charge, which the arm for an
    authenticated state starts, or one already resolved with [ok(null)].  A
    promise has no [exhaustive], so the call throws a [TypeError], outside any
    try/catch: [handleRequest] rejects, and the statements after the match
    (the test of the charge's result, the call of [config.fetch], the cache
    write, the success response) are never run.  The charge that was started
    is not awaited and not cancelled: it runs to its end, and the store this
    model returns is the store after it. *)

Section Orchestrator.
Context `{Collator}.

(** The store operations of the charge the match starts: for an authenticated
    state with a positive balance those of [chargeUser], for any other state
    none.  The result of the charge is never read. *)
Definition chargeStep (config : Config) (userState : UserState) (kv : Kv string)
  : Kv string :=
  match userState with
  | authenticated user =>
      if balance user >? 0
      then (chargeUser (access_token user) (priceCredit config) kv).2
      else kv
  | _ => kv
  end.

(** What [handleRequest] does after the cache lookup did not hit.  [request],
    [responseFormat] and [cacheKey] are in scope there, and only the
    statements that are never run use them. *)
Definition afterCacheMiss (config : Config) (env : gmap string string) (now : Z)
           (request : Request) (requestData : RequestData)
           (responseFormat : ResponseFormat) (cacheKey : string) (kv : Kv string)
  : Settled * Kv string :=
  let '(userState, kv1) := determineUserState requestData kv in
  let '(rateLimitResult, kv2) := checkRateLimit config now userState kv1 in
  match rateLimitResult with
  | err _ => (returned (createPaymentRequiredResponse env "Rate limit check failed"), kv2)
  | ok (exceeded _resetTime) =>
      let message :=
        "Free rate limit exceeded. Limit: " +:+ pretty (freeRatelimit config)
          +:+ " requests per " +:+ pretty (freeRateLimitResetSeconds config)
          +:+ " seconds." in
      (returned (createPaymentRequiredResponse env message), kv2)
  | ok (allowed _) =>
      (threw (not_a_function "exhaustive"), chargeStep config userState kv2)
  end.

Definition handleRequest (config : Config) (kv : Kv string) (env : gmap string string)
           (now : Z) (request : Request) : Settled * Kv string :=
  if String.eqb (method request) "OPTIONS" then (returned createOptionsResponse, kv)
  else
    let requestData := parseRequestData request in
    let responseFormat := getResponseFormat requestData in
    let cacheKey :=
      createCacheKey config (pathname requestData) (searchParams requestData)
        responseFormat in
    let '(cacheResult, kv1) := getFromCache cacheKey kv in
    match cacheResult with
    | ok (hit value) => (returned (createSuccessResponse value responseFormat HIT), kv1)
    | _ =>
        afterCacheMiss config env now request requestData responseFormat cacheKey kv1
    end.

End Orchestrator.

Definition dquote : string := String "034"%char EmptyString.

(** The configuration the module exports. *)
Definition defaultConfig : Config :=
  mkConfig 1 1 10 3600 (Some 300)
    (fun _ _ kv =>
       (ok ("{" +:+ dquote +:+ "message" +:+ dquote +:+ ":" +:+ dquote
              +:+ "Hello, world!" +:+ dquote +:+ "}"), kv)).

(** ** A concrete collation and a concrete store, for examples

    Comparison by code units, the order [localeCompare] induces on lower-case
    ASCII letters and digits. *)

Fixpoint codeunit_compare (a b : string) : Z :=
  match a, b with
  | EmptyString, EmptyString => 0
  | EmptyString, String _ _ => -1
  | String _ _, EmptyString => 1
  | String x a', String y b' =>
      let d := Z.of_nat (nat_of_ascii x) - Z.of_nat (nat_of_ascii y) in
      if d =? 0 then codeunit_compare a' b' else d
  end.

Definition ordinal : Collator := codeunit_compare.

(** A store that never throws. *)
Definition no_fault : list KvOp -> KvOp -> option Error := fun _ _ => None.

Definition empty_kv {T} : Kv T := mkKv ∅ ∅ ∅ [] no_fault.

(** Configurations and requests used by the examples. *)
Definition echo_handler : Request -> Context -> Kv string -> Result string * Kv string :=
  fun _ context kv =>
    (ok (match ctx_user context with Some _ => "account" | None => "no account" end), kv).

Definition demo_config (freeLimit : Z) (cache : option Z) : Config :=
  mkConfig 1 1 freeLimit 3600 cache echo_handler.

Definition demo_user (token : string) (credits : Z) : StripeUser :=
  mkUser token credits None None None None None None.

Definition get_request (path : string) (query : list (string * string))
           (authorization : option string) : Request :=
  mkRequest "GET" path query authorization None.

(** A store in which the anonymous identity has used up a quota of two, and
    the cache holds [cached] for [GET /x]. *)
Definition exhausted_kv (cached : string) : Kv string :=
  mkKv ∅ {[ "ratelimit:anonymous" := mkRateLimitData 2 5000 ]}
       {[ "cache:v1:/x::json" := cached ]} [] no_fault.

(** A store whose record for the anonymous identity expired at instant 5000
    with seven requests counted. *)
Definition stale_kv : Kv string :=
  mkKv ∅ {[ "ratelimit:anonymous" := mkRateLimitData 7 5000 ]} ∅ [] no_fault.

(** A store holding one account, under its own token. *)
Definition account_kv (token : string) (credits : Z) : Kv string :=
  mkKv {[ "user:" +:+ token := demo_user token credits ]} ∅ ∅ [] no_fault.

(** A configuration whose price is 5. *)
Definition pricey_config : Config := mkConfig 1 5 2 3600 None echo_handler.

(** The key an operation addresses. *)
Definition op_key (op : KvOp) : string :=
  match op with KvGet key => key | KvSet key _ => key end.

(** A store whose operations throw on the keys that contain [part], and on no
    other. *)
Definition down_on (part : string) : list KvOp -> KvOp -> option Error :=
  fun _ op => if includes (op_key op) part then Some (mkError "store down") else None.

Definition down_kv (part : string) : Kv string := mkKv ∅ ∅ ∅ [] (down_on part).

(** ** Vocabulary of the properties *)

(** A store none of whose operations ever throws. *)
Definition reliable {T} (kv : Kv T) : Prop := forall log op, kv_fault kv log op = None.

(** The store after a successful write of a rate-limit record. *)
Definition with_ratelimit {T} (key : string) (data : RateLimitData) (kv : Kv T) : Kv T :=
  kv_attempted (KvSet key None)
    (mkKv (kv_users kv) (<[key := data]> (kv_ratelimits kv)) (kv_cache kv)
          (kv_log kv) (kv_fault kv)).

(** The store after a successful write of an account. *)
Definition with_user {T} (key : string) (user : StripeUser) (kv : Kv T) : Kv T :=
  kv_attempted (KvSet key None)
    (mkKv (<[key := user]> (kv_users kv)) (kv_ratelimits kv) (kv_cache kv)
          (kv_log kv) (kv_fault kv)).

(** The identity under which a state on the free-tier path is counted. *)
Definition free_tier_identity (userState : UserState) (identity : string) : Prop :=
  userState = anonymous identity
  \/ exists user, userState = insufficient_balance user /\ access_token user = identity.

(** The message of the payment-required response for an exceeded free tier. *)
Definition exceeded_message (config : Config) : string :=
  "Free rate limit exceeded. Limit: " +:+ pretty (freeRatelimit config)
    +:+ " requests per " +:+ pretty (freeRateLimitResetSeconds config)
    +:+ " seconds.".

(** The configuration with another handler. *)
Definition with_fetch (config : Config)
           (handler : Request -> Context -> Kv string -> Result string * Kv string)
  : Config :=
  mkConfig (version config) (priceCredit config) (freeRatelimit config)
           (freeRateLimitResetSeconds config) (cacheSeconds config) handler.

(** The cache key [handleRequest] computes for a request. *)
Definition cache_key_of `{Collator} (config : Config) (request : Request) : string :=
  let requestData := parseRequestData request in
  createCacheKey config (pathname requestData) (searchParams requestData)
    (getResponseFormat requestData).

(** The store holds nothing that the cache lookup for the request would
    serve. *)
Definition not_cached `{Collator} (config : Config) (kv : Kv string)
           (request : Request) : Prop :=
  match kv_cache kv !! cache_key_of config request with
  | Some value => truthy value = false
  | None => True
  end.







(** Every code unit of [s] satisfies [p]. *)
Fixpoint str_all (p : ascii -> bool) (s : string) : bool :=
  match s with
  | EmptyString => true
  | String c r => p c && str_all p r
  end.

Definition is_star (c : ascii) : bool := Ascii.eqb c "*"%char.
Definition is_newline (c : ascii) : bool := Ascii.eqb c "010"%char.

(** [s] contains no code unit that [bad] singles out. *)
Definition free_of (bad : ascii -> bool) (s : string) : Prop :=
  str_all (fun c => negb (bad c)) s = true.

(** Text of one line without emphasis marks: no asterisk, no line
    terminator. *)
Definition inline_text (t : string) : Prop :=
  free_of is_star t /\ free_of is_line_terminator t.


(** The matcher fails wherever the input starts with a code unit that
    satisfies [p]. *)
Definition blind_to (m : Matcher) (p : ascii -> bool) : Prop :=
  forall prev c r, p c = true -> m prev (String c r) = None.

(** The code unit before the position reached after reading [a]. *)
Fixpoint prev_after (prev : option ascii) (a : string) : option ascii :=
  match a with
  | EmptyString => prev
  | String c r => prev_after (Some c) r
  end.

(** The identity a user state is rate limited under. *)
Definition identity_of (userState : UserState) : string :=
  match userState with
  | anonymous clientId => clientId
  | authenticated user => access_token user
  | insufficient_balance user => access_token user
  end.

(** Every stored rate-limit count lies between 0 and the limit. *)
Definition counts_within (limit : Z) (records : gmap string RateLimitData) : Prop :=
  forall key data, records !! key = Some data -> 0 <= count data <= limit.

(** No stored balance is negative. *)
Definition balances_non_negative (users : gmap string StripeUser) : Prop :=
  forall key user, users !! key = Some user -> 0 <= balance user.

Definition is_dot (c : ascii) : bool := Ascii.eqb c "."%char.

(** The three cross-origin headers. *)
Definition has_cors_headers (response : Response) : Prop :=
  header "Access-Control-Allow-Origin" response = Some "*"
  /\ header "Access-Control-Allow-Methods" response
     = Some "GET, POST, PUT, DELETE, OPTIONS"
  /\ header "Access-Control-Allow-Headers" response = Some "Content-Type, Authorization".

(** The two messages a payment-required response can carry. *)
Definition rejection_message (config : Config) (message : string) : Prop :=
  message = "Rate limit check failed" \/ message = exceeded_message config.

(** * Properties *)

(** ** Strings *)

Section StringFacts.

Lemma append_cons c (a b : string) : String c a +:+ b = String c (a +:+ b).
Proof. reflexivity. Qed.

Lemma append_nil_l (b : string) : "" +:+ b = b.
Proof. reflexivity. Qed.

Lemma append_nil_r (s : string) : s +:+ "" = s.
Proof.
  induction s as [| c s IH]; [done |]. now rewrite append_cons, IH.
Qed.

Lemma append_assoc (a b c : string) : (a +:+ b) +:+ c = a +:+ (b +:+ c).
Proof.
  induction a as [| x a IH]; [done |]. now rewrite !append_cons, IH.
Qed.

Lemma length_append (a b : string) :
  String.length (a +:+ b) = (String.length a + String.length b)%nat.
Proof.
  induction a as [| x a IH]; [done |]. rewrite append_cons. simpl. now rewrite IH.
Qed.

Lemma str_all_append p a b : str_all p (a +:+ b) = str_all p a && str_all p b.
Proof.
  induction a as [| x a IH]; [done |]. rewrite append_cons. simpl.
  rewrite IH. now rewrite andb_assoc.
Qed.

Lemma free_of_append bad a b : free_of bad a -> free_of bad b -> free_of bad (a +:+ b).
Proof. unfold free_of. intros Ha Hb. now rewrite str_all_append, Ha, Hb. Qed.

Lemma free_of_newline s : free_of is_line_terminator s -> free_of is_newline s.
Proof.
  unfold free_of. induction s as [| c s IH]; simpl; [done |].
  intros [Hc Hs]%andb_true_iff. rewrite IH by done.
  unfold is_line_terminator, is_newline in *.
  destruct (Ascii.eqb c "010"); done.
Qed.

Lemma strip_prefix_append p s : strip_prefix p (p +:+ s) = Some s.
Proof.
  induction p as [| c p IH]; [done |]. rewrite append_cons. simpl.
  now rewrite Ascii.eqb_refl.
Qed.


End StringFacts.

(** The three key families never share a key, which is what lets the store
    keep them as three typed maps. *)
Lemma key_families_disjoint `{Collator} config pathname params format token userId :
  "user:" +:+ token <> "ratelimit:" +:+ userId
  /\ createCacheKey config pathname params format <> "user:" +:+ token
  /\ createCacheKey config pathname params format <> "ratelimit:" +:+ userId.
Proof.
  unfold createCacheKey. rewrite !append_cons. repeat split; discriminate.
Qed.

(** ** The store *)

Section StoreFacts.
Context {T : Type}.
Implicit Types kv : Kv T.

Lemma kv_get_ok {V} (f : Family T V) key kv :
  kv_fault kv (kv_log kv) (KvGet key) = None ->
  kv_get f key kv = (ok (fam_read f kv !! key), kv_attempted (KvGet key) kv).
Proof. intros Hf. unfold kv_get. now rewrite Hf. Qed.

Lemma kv_get_err {V} (f : Family T V) key kv e :
  kv_fault kv (kv_log kv) (KvGet key) = Some e ->
  kv_get f key kv = (err e, kv_attempted (KvGet key) kv).
Proof. intros Hf. unfold kv_get. now rewrite Hf. Qed.

Lemma kv_set_ok {V} (f : Family T V) key (v : V) ttl kv :
  kv_fault kv (kv_log kv) (KvSet key ttl) = None ->
  kv_set f key v ttl kv
  = (ok tt, kv_attempted (KvSet key ttl) (fam_write f (<[key := v]> (fam_read f kv)) kv)).
Proof. intros Hf. unfold kv_set. now rewrite Hf. Qed.

Lemma kv_get_store {V} (f : Family T V) key kv :
  (kv_get f key kv).2 = kv_attempted (KvGet key) kv.
Proof. unfold kv_get. now destruct (kv_fault kv (kv_log kv) (KvGet key)). Qed.

End StoreFacts.

(** ** Cache writes and reads *)

(** C9: when [cacheSeconds] is absent, zero or negative, [setCache] attempts
    no store operation at all, for every key and value: the store it leaves is
    the store it was given, and the result is [ok]. *)
Theorem setCache_disabled_is_noop (config : Config) (cacheKey value : string)
        (kv : Kv string) :
  (cacheSeconds config = None \/ exists s, cacheSeconds config = Some s /\ s <= 0) ->
  setCache config cacheKey value kv = (ok tt, kv).
Proof.
  intros [Hnone | (s & Hs & Hle)]; unfold setCache.
  - now rewrite Hnone.
  - rewrite Hs. destruct (s <=? 0) eqn:E; [| lia].
    now rewrite orb_true_r.
Qed.

Lemma setCache_disabled_is_noop_witness :
  setCache (demo_config 2 None) "k" "v" empty_kv = (ok tt, empty_kv)
  /\ setCache (demo_config 2 (Some 0)) "k" "v" empty_kv = (ok tt, empty_kv)
  /\ setCache (demo_config 2 (Some (-5))) "k" "v" empty_kv = (ok tt, empty_kv).
Proof.
  split; [| split]; apply setCache_disabled_is_noop.
  - left; reflexivity.
  - right; exists 0; split; [reflexivity | lia].
  - right; exists (-5); split; [reflexivity | lia].
Defined.

Lemma getFromCache_falsy {T} `{Truthy T} (kv : Kv T) (cacheKey : string) (v : T) :
  kv_fault kv (kv_log kv) (KvGet cacheKey) = None ->
  kv_cache kv !! cacheKey = Some v ->
  truthy v = false ->
  getFromCache cacheKey kv = (ok miss, kv_attempted (KvGet cacheKey) kv).
Proof.
  intros Hf Hv Ht. unfold getFromCache.
  rewrite (kv_get_ok Cache) by done. simpl. now rewrite Hv, Ht.
Qed.

Lemma getFromCache_truthy {T} `{Truthy T} (kv : Kv T) (cacheKey : string) (v : T) :
  kv_fault kv (kv_log kv) (KvGet cacheKey) = None ->
  kv_cache kv !! cacheKey = Some v ->
  truthy v = true ->
  getFromCache cacheKey kv = (ok (hit v), kv_attempted (KvGet cacheKey) kv).
Proof.
  intros Hf Hv Ht. unfold getFromCache.
  rewrite (kv_get_ok Cache) by done. simpl. now rewrite Hv, Ht.
Qed.

Lemma getFromCache_store {T} `{Truthy T} (kv : Kv T) (cacheKey : string) :
  (getFromCache cacheKey kv).2 = kv_attempted (KvGet cacheKey) kv.
Proof.
  unfold getFromCache. pose proof (kv_get_store Cache cacheKey kv) as E.
  destruct (kv_get Cache cacheKey kv) as [[[v|]|e] kv1]; simpl in *; subst; try done.
  now destruct (truthy v).
Qed.

Lemma setCache_enabled (config : Config) (cacheKey value : string) (kv : Kv string) s :
  cacheSeconds config = Some s -> 0 < s ->
  kv_fault kv (kv_log kv) (KvSet cacheKey (Some (s * 1000))) = None ->
  setCache config cacheKey value kv
  = (ok tt, kv_attempted (KvSet cacheKey (Some (s * 1000)))
              (mkKv (kv_users kv) (kv_ratelimits kv) (<[cacheKey := value]> (kv_cache kv))
                    (kv_log kv) (kv_fault kv))).
Proof.
  intros Hs Hpos Hf. unfold setCache. rewrite Hs.
  unfold truthy, truthy_number.
  destruct (s =? 0) eqn:E0; [lia |]. destruct (s <=? 0) eqn:E1; [lia |]. simpl.
  now rewrite (kv_set_ok Cache).
Qed.

Lemma handleRequest_not_options `{Collator} config kv env now request :
  method request <> "OPTIONS" ->
  handleRequest config kv env now request
  = let requestData := parseRequestData request in
    let responseFormat := getResponseFormat requestData in
    let cacheKey :=
      createCacheKey config (pathname requestData) (searchParams requestData)
        responseFormat in
    match getFromCache cacheKey kv with
    | (ok (hit value), kv1) => (returned (createSuccessResponse value responseFormat HIT), kv1)
    | (_, kv1) =>
        afterCacheMiss config env now request requestData responseFormat cacheKey kv1
    end.
Proof.
  intros Hm. unfold handleRequest.
  apply String.eqb_neq in Hm. rewrite Hm. cbv zeta.
  destruct (getFromCache _ kv) as [[[v|]|e] kv1]; reflexivity.
Qed.

(** C10: [getFromCache] reports a hit only for a truthy stored value.  For a
    store that answers the read, a key whose stored value is falsy (the empty
    string, 0, false, null) yields [miss].  Hence an empty body that
    [setCache] stored is not served from the cache: the lookup after the write
    misses, and a request whose cache key holds the empty string continues
    with user-state resolution, rate limiting and billing. *)
Theorem falsy_cached_value_is_a_miss :
  (forall (T : Type) (truthyT : Truthy T) (kv : Kv T) (cacheKey : string) (v : T),
      kv_fault kv (kv_log kv) (KvGet cacheKey) = None ->
      kv_cache kv !! cacheKey = Some v ->
      truthy v = false ->
      getFromCache cacheKey kv = (ok miss, kv_attempted (KvGet cacheKey) kv))
  /\ (truthy "" = false /\ truthy 0 = false /\ truthy false = false
      /\ truthy (None : option string) = false)
  /\ (forall (config : Config) (cacheKey : string) (kv : Kv string) (s : Z),
         cacheSeconds config = Some s -> 0 < s -> reliable kv ->
         let '(written, kv1) := setCache config cacheKey "" kv in
         written = ok tt
         /\ kv_cache kv1 !! cacheKey = Some ""
         /\ (getFromCache cacheKey kv1).1 = ok miss)
  /\ (forall (collator : Collator) (config : Config) (kv : Kv string)
             (env : gmap string string) (now : Z) (request : Request),
         let requestData := parseRequestData request in
         let responseFormat := getResponseFormat requestData in
         let cacheKey :=
           createCacheKey config (pathname requestData) (searchParams requestData)
             responseFormat in
         method request <> "OPTIONS" ->
         kv_fault kv (kv_log kv) (KvGet cacheKey) = None ->
         kv_cache kv !! cacheKey = Some "" ->
         handleRequest config kv env now request
         = afterCacheMiss config env now request requestData responseFormat cacheKey
             (kv_attempted (KvGet cacheKey) kv)).
Proof.
  split; [| split; [| split]].
  - intros T truthyT kv cacheKey v. apply getFromCache_falsy.
  - repeat split.
  - intros config cacheKey kv s Hs Hpos Hrel.
    rewrite (setCache_enabled _ _ _ _ s) by (try done; apply Hrel).
    split; [done |]. split.
    + simpl. apply lookup_insert_eq.
    + erewrite getFromCache_falsy; [done | apply Hrel | apply lookup_insert_eq | done].
  - intros collator config kv env now request requestData responseFormat cacheKey Hm Hf Hv.
    rewrite handleRequest_not_options by done. cbv zeta.
    fold requestData. fold responseFormat. fold cacheKey.
    now rewrite (getFromCache_falsy kv cacheKey "").
Qed.

Lemma falsy_cached_value_is_a_miss_witness :
  getFromCache "cache:v1:/x::json" (exhausted_kv "")
  = (ok miss, kv_attempted (KvGet "cache:v1:/x::json") (exhausted_kv ""))
  /\ (handleRequest (H := ordinal) (demo_config 2 None) (exhausted_kv "") ∅ 1000
        (get_request "/x" [] None)).1
     = returned (createPaymentRequiredResponse ∅
                   "Free rate limit exceeded. Limit: 2 requests per 3600 seconds.").
Proof.
  destruct falsy_cached_value_is_a_miss as (Hmiss & _ & _ & Hpipeline).
  split.
  - apply (Hmiss string _ _ _ ""); reflexivity.
  - rewrite (Hpipeline ordinal); [vm_compute; reflexivity | discriminate | reflexivity
                                 | reflexivity].
Defined.

(** ** The rate limiter *)

Section RateLimiter.
Context {T : Type}.
Implicit Types kv : Kv T.

Lemma getRateLimitData_read config now userId kv :
  let key := "ratelimit:" +:+ userId in
  let fresh := mkRateLimitData 0 (now + freeRateLimitResetSeconds config * 1000) in
  kv_fault kv (kv_log kv) (KvGet key) = None ->
  getRateLimitData config now userId kv
  = (ok (match kv_ratelimits kv !! key with
         | None => fresh
         | Some data => if now >? resetTime data then fresh else data
         end),
     kv_attempted (KvGet key) kv).
Proof.
  intros key fresh Hf. unfold getRateLimitData. fold key.
  rewrite (kv_get_ok RateLimits) by done. simpl.
  destruct (kv_ratelimits kv !! key) as [data|]; [| done].
  now destruct (now >? resetTime data).
Qed.

Lemma getRateLimitData_store config now userId kv :
  (getRateLimitData config now userId kv).2
  = kv_attempted (KvGet ("ratelimit:" +:+ userId)) kv.
Proof.
  unfold getRateLimitData.
  pose proof (kv_get_store RateLimits ("ratelimit:" +:+ userId) kv) as E.
  destruct (kv_get RateLimits _ kv) as [[[data|]|e] kv1]; simpl in *; subst; try done.
  now destruct (now >? resetTime data).
Qed.

Lemma updateRateLimit_ok userId data kv :
  kv_fault kv (kv_log kv) (KvSet ("ratelimit:" +:+ userId) None) = None ->
  updateRateLimit userId data kv = (ok tt, with_ratelimit ("ratelimit:" +:+ userId) data kv).
Proof. intros Hf. unfold updateRateLimit. now rewrite (kv_set_ok RateLimits). Qed.

Lemma checkFreeRateLimit_exceeded config now clientId kv c r kv1 :
  getRateLimitData config now clientId kv = (ok (mkRateLimitData c r), kv1) ->
  c >= freeRatelimit config ->
  checkFreeRateLimit config now clientId kv = (ok (exceeded r), kv1).
Proof.
  intros Hget Hc. unfold checkFreeRateLimit. rewrite Hget. simpl.
  destruct (c >=? freeRatelimit config) eqn:E; [done | lia].
Qed.

Lemma checkFreeRateLimit_allowed config now clientId kv c r kv1 :
  getRateLimitData config now clientId kv = (ok (mkRateLimitData c r), kv1) ->
  c < freeRatelimit config ->
  kv_fault kv1 (kv_log kv1) (KvSet ("ratelimit:" +:+ clientId) None) = None ->
  checkFreeRateLimit config now clientId kv
  = (ok (allowed (freeRatelimit config - (c + 1))),
     with_ratelimit ("ratelimit:" +:+ clientId) (mkRateLimitData (c + 1) r) kv1).
Proof.
  intros Hget Hc Hf. unfold checkFreeRateLimit. rewrite Hget. simpl.
  destruct (c >=? freeRatelimit config) eqn:E; [lia |].
  now rewrite updateRateLimit_ok.
Qed.

Lemma checkRateLimit_free_tier config now userState identity kv :
  free_tier_identity userState identity ->
  checkRateLimit config now userState kv = checkFreeRateLimit config now identity kv.
Proof. intros [-> | (user & -> & <-)]; reflexivity. Qed.

Lemma getRateLimitData_stale config now userId kv :
  let key := "ratelimit:" +:+ userId in
  kv_fault kv (kv_log kv) (KvGet key) = None ->
  (kv_ratelimits kv !! key = None
   \/ exists stored, kv_ratelimits kv !! key = Some stored /\ now > resetTime stored) ->
  getRateLimitData config now userId kv
  = (ok (mkRateLimitData 0 (now + freeRateLimitResetSeconds config * 1000)),
     kv_attempted (KvGet key) kv).
Proof.
  intros key Hf Hstale. rewrite getRateLimitData_read by done. fold key.
  destruct Hstale as [-> | (stored & -> & Hpast)]; [done |].
  destruct (now >? resetTime stored) eqn:E; [done | lia].
Qed.

(** C4: when the identity's record is absent, or its [resetTime] is strictly
    before [now], the read yields count 0 and the fresh
    [resetTime = now + freeRateLimitResetSeconds * 1000] (milliseconds),
    whatever count was stored; and the comparison with the free limit sees
    that count 0: the check is exceeded only if the limit itself is at most
    0, and otherwise writes count 1 with the fresh [resetTime]. *)
Theorem stale_record_counts_as_zero config now userId kv :
  let key := "ratelimit:" +:+ userId in
  let fresh := now + freeRateLimitResetSeconds config * 1000 in
  kv_fault kv (kv_log kv) (KvGet key) = None ->
  (kv_ratelimits kv !! key = None
   \/ exists stored, kv_ratelimits kv !! key = Some stored /\ now > resetTime stored) ->
  getRateLimitData config now userId kv
  = (ok (mkRateLimitData 0 fresh), kv_attempted (KvGet key) kv)
  /\ checkFreeRateLimit config now userId kv
     = if 0 >=? freeRatelimit config
       then (ok (exceeded fresh), kv_attempted (KvGet key) kv)
       else
         match updateRateLimit userId (mkRateLimitData 1 fresh)
                 (kv_attempted (KvGet key) kv) with
         | (ok _, kv2) => (ok (allowed (freeRatelimit config - 1)), kv2)
         | (err e, kv2) => (err e, kv2)
         end.
Proof.
  intros key fresh Hf Hstale.
  pose proof (getRateLimitData_stale config now userId kv Hf Hstale) as Hget.
  split; [exact Hget |].
  unfold checkFreeRateLimit. rewrite Hget. simpl.
  destruct (0 >=? freeRatelimit config); [done |].
  destruct (updateRateLimit userId _ _) as [[[]|e] kv2]; reflexivity.
Qed.

End RateLimiter.

Lemma stale_record_counts_as_zero_witness :
  getRateLimitData (demo_config 2 None) 5001 "anonymous" stale_kv
  = (ok (mkRateLimitData 0 3605001), kv_attempted (KvGet "ratelimit:anonymous") stale_kv)
  /\ (checkFreeRateLimit (demo_config 2 None) 5001 "anonymous" stale_kv).1
     = ok (allowed 1).
Proof.
  destruct (stale_record_counts_as_zero (demo_config 2 None) 5001 "anonymous" stale_kv)
    as [Hread Hcheck].
  - reflexivity.
  - right. exists (mkRateLimitData 7 5000). split; [reflexivity | simpl; lia].
  - split; [exact Hread | rewrite Hcheck; reflexivity].
Defined.

Section FreeTier.
Context {T : Type}.
Implicit Types kv : Kv T.

Lemma reliable_attempted op kv : reliable kv -> reliable (kv_attempted op kv).
Proof. intros Hrel log op'. apply Hrel. Qed.

Lemma reliable_with_ratelimit key data kv :
  reliable kv -> reliable (with_ratelimit key data kv).
Proof. intros Hrel log op'. apply Hrel. Qed.

(** The check on a store whose record for the identity is absent or expired. *)
Lemma checkFreeRateLimit_fresh config now clientId kv :
  let key := "ratelimit:" +:+ clientId in
  let fresh := now + freeRateLimitResetSeconds config * 1000 in
  reliable kv ->
  (kv_ratelimits kv !! key = None
   \/ exists stored, kv_ratelimits kv !! key = Some stored /\ now > resetTime stored) ->
  0 < freeRatelimit config ->
  checkFreeRateLimit config now clientId kv
  = (ok (allowed (freeRatelimit config - 1)),
     with_ratelimit key (mkRateLimitData 1 fresh) (kv_attempted (KvGet key) kv)).
Proof.
  intros key fresh Hrel Hstale Hpos.
  pose proof (getRateLimitData_stale config now clientId kv (Hrel _ _) Hstale) as Hget.
  rewrite (checkFreeRateLimit_allowed _ _ _ _ _ _ _ Hget) by (try lia; apply Hrel).
  reflexivity.
Qed.

(** The check on a store whose record for the identity is within its window. *)
Lemma getRateLimitData_live config now clientId kv c r :
  let key := "ratelimit:" +:+ clientId in
  reliable kv ->
  kv_ratelimits kv !! key = Some (mkRateLimitData c r) -> now <= r ->
  getRateLimitData config now clientId kv
  = (ok (mkRateLimitData c r), kv_attempted (KvGet key) kv).
Proof.
  intros key Hrel Hrec Hnow.
  rewrite getRateLimitData_read by apply Hrel. fold key. rewrite Hrec. simpl.
  destruct (now >? r) eqn:E; [lia | done].
Qed.

Lemma checkFreeRateLimit_live_allowed config now clientId kv c r :
  let key := "ratelimit:" +:+ clientId in
  reliable kv ->
  kv_ratelimits kv !! key = Some (mkRateLimitData c r) -> now <= r ->
  c < freeRatelimit config ->
  checkFreeRateLimit config now clientId kv
  = (ok (allowed (freeRatelimit config - (c + 1))),
     with_ratelimit key (mkRateLimitData (c + 1) r) (kv_attempted (KvGet key) kv)).
Proof.
  intros key Hrel Hrec Hnow Hc.
  apply checkFreeRateLimit_allowed; [| done | apply Hrel].
  now apply getRateLimitData_live.
Qed.

Lemma checkFreeRateLimit_live_exceeded config now clientId kv c r :
  let key := "ratelimit:" +:+ clientId in
  reliable kv ->
  kv_ratelimits kv !! key = Some (mkRateLimitData c r) -> now <= r ->
  c >= freeRatelimit config ->
  checkFreeRateLimit config now clientId kv
  = (ok (exceeded r), kv_attempted (KvGet key) kv).
Proof.
  intros key Hrel Hrec Hnow Hc.
  apply checkFreeRateLimit_exceeded with (c := c); [| done].
  now apply getRateLimitData_live.
Qed.

Lemma with_ratelimit_lookup key data kv :
  kv_ratelimits (with_ratelimit key data kv) !! key = Some data.
Proof. simpl. apply lookup_insert_eq. Qed.

(** Three successive checks of one free-tier identity, limit 2, window 3600
    seconds, all within the window the first check opens. *)
Lemma three_checks_in_a_window config userState identity kv now1 now2 now3 :
  let key := "ratelimit:" +:+ identity in
  free_tier_identity userState identity ->
  freeRatelimit config = 2 -> freeRateLimitResetSeconds config = 3600 ->
  reliable kv ->
  (kv_ratelimits kv !! key = None
   \/ exists stored, kv_ratelimits kv !! key = Some stored /\ now1 > resetTime stored) ->
  now2 <= now1 + 3600 * 1000 -> now3 <= now1 + 3600 * 1000 ->
  let '(first, kv1) := checkRateLimit config now1 userState kv in
  let '(second, kv2) := checkRateLimit config now2 userState kv1 in
  let '(third, _) := checkRateLimit config now3 userState kv2 in
  first = ok (allowed 1) /\ second = ok (allowed 0)
  /\ third = ok (exceeded (now1 + 3600 * 1000)).
Proof.
  intros key Hid Hlimit Hwindow Hrel Hstale H2 H3.
  rewrite (checkRateLimit_free_tier _ _ _ _ _ Hid).
  rewrite checkFreeRateLimit_fresh by (try done; lia). fold key.
  rewrite Hlimit, Hwindow. cbv beta iota.
  set (kv1 := with_ratelimit key _ _).
  assert (Hrel1 : reliable kv1) by (apply reliable_with_ratelimit, reliable_attempted, Hrel).
  rewrite (checkRateLimit_free_tier _ _ _ _ _ Hid).
  rewrite (checkFreeRateLimit_live_allowed config now2 identity kv1 1 (now1 + 3600 * 1000));
    [| done | apply with_ratelimit_lookup | done | lia].
  fold key. rewrite Hlimit. cbv beta iota.
  set (kv2 := with_ratelimit key _ _).
  assert (Hrel2 : reliable kv2) by (apply reliable_with_ratelimit, reliable_attempted, Hrel1).
  rewrite (checkRateLimit_free_tier _ _ _ _ _ Hid).
  rewrite (checkFreeRateLimit_live_exceeded config now3 identity kv2 2 (now1 + 3600 * 1000));
    [| done | apply with_ratelimit_lookup | done | lia].
  done.
Qed.

End FreeTier.

(** ** Requests on the free tier, end to end *)

Section FreeRequests.
Context `{Collator}.

Lemma handleRequest_not_cached config kv env now request :
  method request <> "OPTIONS" ->
  not_cached config kv request ->
  handleRequest config kv env now request
  = afterCacheMiss config env now request (parseRequestData request)
      (getResponseFormat (parseRequestData request)) (cache_key_of config request)
      (kv_attempted (KvGet (cache_key_of config request)) kv).
Proof.
  intros Hm Hc. rewrite handleRequest_not_options by done. cbv zeta.
  fold (cache_key_of config request). unfold not_cached in Hc.
  unfold getFromCache, kv_get.
  destruct (kv_fault kv (kv_log kv) (KvGet (cache_key_of config request))); simpl.
  - reflexivity.
  - destruct (kv_cache kv !! cache_key_of config request) as [value|]; [| done].
    now rewrite Hc.
Qed.

Lemma parseRequestData_no_header request :
  header_authorization request = None -> authToken (parseRequestData request) = None.
Proof. intros Hh. unfold parseRequestData. now rewrite Hh. Qed.

Lemma afterCacheMiss_no_token config env now request requestData format cacheKey
      (kv : Kv string) :
  authToken requestData = None ->
  afterCacheMiss config env now request requestData format cacheKey kv
  = match checkFreeRateLimit config now "anonymous" kv with
    | (err _, kv2) =>
        (returned (createPaymentRequiredResponse env "Rate limit check failed"), kv2)
    | (ok (exceeded _), kv2) =>
        (returned (createPaymentRequiredResponse env (exceeded_message config)), kv2)
    | (ok (allowed _), kv2) => (threw (not_a_function "exhaustive"), kv2)
    end.
Proof.
  intros Htok. unfold afterCacheMiss, determineUserState. rewrite Htok. simpl.
  destruct (checkFreeRateLimit config now "anonymous" kv) as [[[n|r]|e] kv2]; reflexivity.
Qed.

Lemma free_request_allowed config kv env now request n kv2 :
  method request <> "OPTIONS" -> header_authorization request = None ->
  not_cached config kv request ->
  checkFreeRateLimit config now "anonymous"
    (kv_attempted (KvGet (cache_key_of config request)) kv) = (ok (allowed n), kv2) ->
  handleRequest config kv env now request = (threw (not_a_function "exhaustive"), kv2).
Proof.
  intros Hm Hh Hc Hcheck.
  rewrite handleRequest_not_cached by done.
  rewrite afterCacheMiss_no_token by now apply parseRequestData_no_header.
  now rewrite Hcheck.
Qed.

Lemma free_request_rejected config kv env now request r kv2 :
  method request <> "OPTIONS" -> header_authorization request = None ->
  not_cached config kv request ->
  checkFreeRateLimit config now "anonymous"
    (kv_attempted (KvGet (cache_key_of config request)) kv) = (ok (exceeded r), kv2) ->
  handleRequest config kv env now request
  = (returned (createPaymentRequiredResponse env (exceeded_message config)), kv2).
Proof.
  intros Hm Hh Hc Hcheck.
  rewrite handleRequest_not_cached by done.
  rewrite afterCacheMiss_no_token by now apply parseRequestData_no_header.
  now rewrite Hcheck.
Qed.

Lemma reliable_same_fault {T} (kv kv' : Kv T) :
  kv_fault kv' = kv_fault kv -> reliable kv -> reliable kv'.
Proof. intros E Hrel log op. rewrite E. apply Hrel. Qed.

(** Three successive requests without a token, none served from the cache. *)
Lemma three_requests_in_a_window config kv env now1 now2 now3 req1 req2 req3 :
  freeRatelimit config = 2 -> freeRateLimitResetSeconds config = 3600 ->
  reliable kv ->
  (kv_ratelimits kv !! "ratelimit:anonymous" = None
   \/ exists stored, kv_ratelimits kv !! "ratelimit:anonymous" = Some stored
                     /\ now1 > resetTime stored) ->
  now2 <= now1 + 3600 * 1000 -> now3 <= now1 + 3600 * 1000 ->
  Forall (fun request => method request <> "OPTIONS"
                         /\ header_authorization request = None
                         /\ not_cached config kv request) [req1; req2; req3] ->
  let first := handleRequest config kv env now1 req1 in
  let second := handleRequest config first.2 env now2 req2 in
  let third := handleRequest config second.2 env now3 req3 in
  (first.1 = threw (not_a_function "exhaustive")
   /\ kv_ratelimits first.2 !! "ratelimit:anonymous"
      = Some (mkRateLimitData 1 (now1 + 3600 * 1000)))
  /\ (second.1 = threw (not_a_function "exhaustive")
      /\ kv_ratelimits second.2 !! "ratelimit:anonymous"
         = Some (mkRateLimitData 2 (now1 + 3600 * 1000)))
  /\ third.1 = returned (createPaymentRequiredResponse env (exceeded_message config))
  /\ kv_ratelimits third.2 = kv_ratelimits second.2
  /\ includes (exceeded_message config) "2 requests per 3600" = true.
Proof.
  intros Hlimit Hwindow Hrel Hstale H2 H3 Hreqs first second third.
  apply Forall_cons in Hreqs as [(Hm1 & Hh1 & Hc1) Hreqs].
  apply Forall_cons in Hreqs as [(Hm2 & Hh2 & Hc2) Hreqs].
  apply Forall_cons in Hreqs as [(Hm3 & Hh3 & Hc3) _].
  subst third second first.
  set (kv0 := kv_attempted (KvGet (cache_key_of config req1)) kv).
  assert (Hcheck1 : checkFreeRateLimit config now1 "anonymous" kv0
                    = (ok (allowed (2 - 1)),
                       with_ratelimit "ratelimit:anonymous"
                         (mkRateLimitData 1 (now1 + 3600 * 1000))
                         (kv_attempted (KvGet "ratelimit:anonymous") kv0))).
  { rewrite <- Hlimit at 1. rewrite <- Hwindow.
    apply (checkFreeRateLimit_fresh config now1 "anonymous" kv0);
      [apply reliable_attempted, Hrel | exact Hstale | lia]. }
  set (kv1 := with_ratelimit "ratelimit:anonymous"
                (mkRateLimitData 1 (now1 + 3600 * 1000))
                (kv_attempted (KvGet "ratelimit:anonymous") kv0)) in *.
  rewrite (free_request_allowed config kv env now1 req1 (2 - 1) kv1); try done.
  cbn [fst snd].
  assert (Hrel1 : reliable kv1)
    by (apply reliable_with_ratelimit; do 2 apply reliable_attempted; exact Hrel).
  assert (Hrec1 : kv_ratelimits kv1 !! "ratelimit:anonymous"
                  = Some (mkRateLimitData 1 (now1 + 3600 * 1000)))
    by apply with_ratelimit_lookup.
  set (kv1' := kv_attempted (KvGet (cache_key_of config req2)) kv1).
  assert (Hcheck2 : checkFreeRateLimit config now2 "anonymous" kv1'
                    = (ok (allowed (2 - (1 + 1))),
                       with_ratelimit "ratelimit:anonymous"
                         (mkRateLimitData (1 + 1) (now1 + 3600 * 1000))
                         (kv_attempted (KvGet "ratelimit:anonymous") kv1'))).
  { rewrite <- Hlimit at 1.
    apply (checkFreeRateLimit_live_allowed config now2 "anonymous" kv1');
      [apply reliable_attempted, Hrel1 | exact Hrec1 | done | lia]. }
  set (kv2 := with_ratelimit "ratelimit:anonymous"
                (mkRateLimitData (1 + 1) (now1 + 3600 * 1000))
                (kv_attempted (KvGet "ratelimit:anonymous") kv1')) in *.
  rewrite (free_request_allowed config kv1 env now2 req2 (2 - (1 + 1)) kv2); try done.
  cbn [fst snd].
  assert (Hrel2 : reliable kv2)
    by (apply reliable_with_ratelimit; do 2 apply reliable_attempted; exact Hrel1).
  assert (Hrec2 : kv_ratelimits kv2 !! "ratelimit:anonymous"
                  = Some (mkRateLimitData (1 + 1) (now1 + 3600 * 1000)))
    by apply with_ratelimit_lookup.
  rewrite (free_request_rejected config kv2 env now3 req3 (now1 + 3600 * 1000)
             (kv_attempted (KvGet "ratelimit:anonymous")
                (kv_attempted (KvGet (cache_key_of config req3)) kv2))); try done.
  2: { apply (checkFreeRateLimit_live_exceeded config now3 "anonymous" _ (1 + 1));
         [apply reliable_attempted, Hrel2 | exact Hrec2 | done | lia]. }
  cbn [fst snd].
  split; [split; [reflexivity | exact Hrec1] |].
  split; [split; [reflexivity | exact Hrec2] |].
  split; [reflexivity |]. split; [reflexivity |].
  unfold exceeded_message. rewrite Hlimit, Hwindow. vm_compute. reflexivity.
Qed.

End FreeRequests.

(** C1: the free-tier check.  For a state on the free-tier path (anonymous or
    insufficient balance), counted under its identity, let [c] and [r] be the
    count and the reset time that the rate-limit read yields (the stored
    record, or the refreshed one).  If [c >= freeRatelimit] the check returns
    [exceeded r] and the only store operation is that read: nothing is
    written.  Otherwise, the write succeeding, it stores count [c + 1] with
    [r] and returns [allowed (freeRatelimit - (c + 1))].

    Consequently, with limit 2 and window 3600 seconds, on a store that does
    not throw and holds no live record for the identity: of three checks
    within the window the first two are allowed and the third is exceeded; and
    of three token-less requests that reach the rate limiter (none is served
    from the cache) the first two pass it, each being counted, so that the
    record shows 1 and then 2, and the third is answered 402 with a message
    containing "2 requests per 3600" and is not counted.  Being allowed does
    not get the first two an answer: after the rate limiter [handleRequest]
    throws at its match on the user state. *)
Theorem free_tier_check_and_consume :
  (forall (T : Type) (config : Config) (now : Z) (userState : UserState)
          (identity : string) (kv : Kv T) (c r : Z),
      let key := "ratelimit:" +:+ identity in
      free_tier_identity userState identity ->
      (getRateLimitData config now identity kv).1 = ok (mkRateLimitData c r) ->
      (c >= freeRatelimit config ->
       checkRateLimit config now userState kv
       = (ok (exceeded r), kv_attempted (KvGet key) kv))
      /\ (c < freeRatelimit config ->
          kv_fault kv (kv_log kv ++ [KvGet key]) (KvSet key None) = None ->
          checkRateLimit config now userState kv
          = (ok (allowed (freeRatelimit config - (c + 1))),
             with_ratelimit key (mkRateLimitData (c + 1) r)
               (kv_attempted (KvGet key) kv))))
  /\ (forall (T : Type) (config : Config) (userState : UserState) (identity : string)
             (kv : Kv T) (now1 now2 now3 : Z),
         let key := "ratelimit:" +:+ identity in
         free_tier_identity userState identity ->
         freeRatelimit config = 2 -> freeRateLimitResetSeconds config = 3600 ->
         reliable kv ->
         (kv_ratelimits kv !! key = None
          \/ exists stored, kv_ratelimits kv !! key = Some stored
                            /\ now1 > resetTime stored) ->
         now2 <= now1 + 3600 * 1000 -> now3 <= now1 + 3600 * 1000 ->
         let '(first, kv1) := checkRateLimit config now1 userState kv in
         let '(second, kv2) := checkRateLimit config now2 userState kv1 in
         let '(third, _) := checkRateLimit config now3 userState kv2 in
         first = ok (allowed 1) /\ second = ok (allowed 0)
         /\ third = ok (exceeded (now1 + 3600 * 1000)))
  /\ (forall (collator : Collator) (config : Config) (kv : Kv string)
             (env : gmap string string) (now1 now2 now3 : Z) (req1 req2 req3 : Request),
         freeRatelimit config = 2 -> freeRateLimitResetSeconds config = 3600 ->
         reliable kv ->
         (kv_ratelimits kv !! "ratelimit:anonymous" = None
          \/ exists stored, kv_ratelimits kv !! "ratelimit:anonymous" = Some stored
                            /\ now1 > resetTime stored) ->
         now2 <= now1 + 3600 * 1000 -> now3 <= now1 + 3600 * 1000 ->
         Forall (fun request => method request <> "OPTIONS"
                                /\ header_authorization request = None
                                /\ not_cached config kv request)
                [req1; req2; req3] ->
         let first := handleRequest config kv env now1 req1 in
         let second := handleRequest config first.2 env now2 req2 in
         let third := handleRequest config second.2 env now3 req3 in
         (first.1 = threw (not_a_function "exhaustive")
          /\ kv_ratelimits first.2 !! "ratelimit:anonymous"
             = Some (mkRateLimitData 1 (now1 + 3600 * 1000)))
         /\ (second.1 = threw (not_a_function "exhaustive")
             /\ kv_ratelimits second.2 !! "ratelimit:anonymous"
                = Some (mkRateLimitData 2 (now1 + 3600 * 1000)))
         /\ (exists response obj,
                third.1 = returned response /\ status response = 402
                /\ body response = BodyJson obj
                /\ includes (pr_message obj) "2 requests per 3600" = true)
         /\ kv_ratelimits third.2 = kv_ratelimits second.2).
Proof.
  split; [| split].
  - intros T config now userState identity kv c r key Hid Hread.
    assert (Hget : getRateLimitData config now identity kv
                   = (ok (mkRateLimitData c r), kv_attempted (KvGet key) kv)).
    { pose proof (getRateLimitData_store config now identity kv) as Hstore.
      destruct (getRateLimitData config now identity kv) as [res kv1].
      simpl in *. now subst. }
    rewrite (checkRateLimit_free_tier _ _ _ _ _ Hid). split.
    + intros Hc. now apply checkFreeRateLimit_exceeded with (c := c).
    + intros Hc Hf. now apply checkFreeRateLimit_allowed.
  - intros T config userState identity kv now1 now2 now3.
    apply three_checks_in_a_window.
  - intros collator config kv env now1 now2 now3 req1 req2 req3
           Hlimit Hwindow Hrel Hstale H2 H3 Hreqs first second third.
    destruct (three_requests_in_a_window config kv env now1 now2 now3 req1 req2 req3
                Hlimit Hwindow Hrel Hstale H2 H3 Hreqs)
      as (Hfirst & Hsecond & Hthird & Hsame & Hmessage).
    fold first second third in Hfirst, Hsecond, Hthird, Hsame.
    split; [exact Hfirst |]. split; [exact Hsecond |]. split; [| exact Hsame].
    eexists _, _. split; [exact Hthird |]. split; [reflexivity |].
    split; [reflexivity | exact Hmessage].
Qed.

Lemma free_tier_check_and_consume_witness :
  checkRateLimit (demo_config 2 None) 1000 (anonymous "anonymous") (exhausted_kv "")
  = (ok (exceeded 5000), kv_attempted (KvGet "ratelimit:anonymous") (exhausted_kv ""))
  /\ checkRateLimit (demo_config 2 None) 1000
       (insufficient_balance (demo_user "tok" 0)) (@empty_kv string)
     = (ok (allowed 1),
        with_ratelimit "ratelimit:tok" (mkRateLimitData 1 3601000)
          (kv_attempted (KvGet "ratelimit:tok") empty_kv))
  /\ (let first :=
        handleRequest (H := ordinal) (demo_config 2 (Some 300)) empty_kv ∅ 1000
          (get_request "/x" [] None) in
      let second :=
        handleRequest (H := ordinal) (demo_config 2 (Some 300)) first.2 ∅ 2000
          (get_request "/y" [] None) in
      let third :=
        handleRequest (H := ordinal) (demo_config 2 (Some 300)) second.2 ∅ 3000
          (get_request "/z" [] None) in
      first.1 = threw (not_a_function "exhaustive")
      /\ second.1 = threw (not_a_function "exhaustive")
      /\ exists response, third.1 = returned response /\ status response = 402).
Proof.
  destruct free_tier_check_and_consume as (Hrule & _ & Hrequests).
  split; [| split].
  - apply (Hrule string (demo_config 2 None) 1000 (anonymous "anonymous") "anonymous"
             (exhausted_kv "") 2 5000); [left; reflexivity | reflexivity | simpl; lia].
  - apply (Hrule string (demo_config 2 None) 1000
             (insufficient_balance (demo_user "tok" 0)) "tok" empty_kv 0 3601000);
      [right; eexists; split; reflexivity | reflexivity | simpl; lia | reflexivity].
  - cbv zeta.
    destruct (Hrequests ordinal (demo_config 2 (Some 300)) empty_kv ∅ 1000 2000 3000
                (get_request "/x" [] None) (get_request "/y" [] None)
                (get_request "/z" [] None))
      as ((Hfirst & _) & (Hsecond & _) & (response & obj & Hthird & Hstatus & _) & _).
    + reflexivity.
    + reflexivity.
    + intros log op; reflexivity.
    + left; reflexivity.
    + lia.
    + lia.
    + repeat constructor; try discriminate; vm_compute; exact I.
    + split; [exact Hfirst |]. split; [exact Hsecond |].
      exists response. split; [exact Hthird | exact Hstatus].
Defined.

(** ** The biller *)

Section Biller.
Context {T : Type}.
Implicit Types kv : Kv T.

Lemma reliable_with_user key user kv : reliable kv -> reliable (with_user key user kv).
Proof. intros Hrel log op. apply Hrel. Qed.

Lemma getUserByToken_ok accessToken kv :
  kv_fault kv (kv_log kv) (KvGet ("user:" +:+ accessToken)) = None ->
  getUserByToken accessToken kv
  = (ok (kv_users kv !! ("user:" +:+ accessToken)),
     kv_attempted (KvGet ("user:" +:+ accessToken)) kv).
Proof. intros Hf. unfold getUserByToken. now rewrite (kv_get_ok Users). Qed.

Lemma chargeUser_sufficient userId amount kv user :
  let key := "user:" +:+ userId in
  kv_fault kv (kv_log kv) (KvGet key) = None ->
  kv_users kv !! key = Some user ->
  balance user >= amount ->
  kv_fault kv (kv_log kv ++ [KvGet key]) (KvSet key None) = None ->
  chargeUser userId amount kv
  = (ok (with_balance user (balance user - amount)),
     with_user key (with_balance user (balance user - amount))
       (kv_attempted (KvGet key) kv)).
Proof.
  intros key Hget Huser Hbal Hset. unfold chargeUser.
  rewrite getUserByToken_ok by done. fold key. rewrite Huser. simpl.
  destruct (balance user <? amount) eqn:E; [lia |].
  now rewrite (kv_set_ok Users).
Qed.

Lemma chargeUser_insufficient userId amount kv user :
  let key := "user:" +:+ userId in
  kv_fault kv (kv_log kv) (KvGet key) = None ->
  kv_users kv !! key = Some user ->
  balance user < amount ->
  chargeUser userId amount kv
  = (err (mkError "Insufficient balance"), kv_attempted (KvGet key) kv).
Proof.
  intros key Hget Huser Hbal. unfold chargeUser.
  rewrite getUserByToken_ok by done. fold key. rewrite Huser. simpl.
  destruct (balance user <? amount) eqn:E; [done | lia].
Qed.

Lemma chargeUser_absent userId amount kv :
  let key := "user:" +:+ userId in
  kv_fault kv (kv_log kv) (KvGet key) = None ->
  kv_users kv !! key = None ->
  chargeUser userId amount kv
  = (err (mkError "User not found"), kv_attempted (KvGet key) kv).
Proof.
  intros key Hget Huser. unfold chargeUser.
  rewrite getUserByToken_ok by done. fold key. now rewrite Huser.
Qed.

(** C2: [chargeUser] re-reads the account under [user:ID].  On a store that
    answers the read: an account with [balance >= amount] is written back with
    [balance - amount] (the write succeeding) and returned, and the new
    balance is not negative; an account with [balance < amount] gives the
    error "Insufficient balance", the read being the only store operation, so
    the stored account is unchanged; no account gives the error
    "User not found".  In particular balance 20 charged 10 gives 10, charged
    10 again gives 0, and a third charge is refused; balance 5 charged 10 is
    refused and stays 5. *)
Theorem chargeUser_debits_or_refuses userId amount kv :
  let key := "user:" +:+ userId in
  kv_fault kv (kv_log kv) (KvGet key) = None ->
  (forall user,
      kv_users kv !! key = Some user -> balance user >= amount ->
      kv_fault kv (kv_log kv ++ [KvGet key]) (KvSet key None) = None ->
      let updated := with_balance user (balance user - amount) in
      chargeUser userId amount kv
      = (ok updated, with_user key updated (kv_attempted (KvGet key) kv))
      /\ balance updated = balance user - amount /\ 0 <= balance updated
      /\ kv_users (chargeUser userId amount kv).2 !! key = Some updated)
  /\ (forall user,
         kv_users kv !! key = Some user -> balance user < amount ->
         chargeUser userId amount kv
         = (err (mkError "Insufficient balance"), kv_attempted (KvGet key) kv)
         /\ kv_users (chargeUser userId amount kv).2 !! key = Some user)
  /\ (kv_users kv !! key = None ->
      chargeUser userId amount kv
      = (err (mkError "User not found"), kv_attempted (KvGet key) kv))
  /\ (forall user,
         reliable kv -> kv_users kv !! key = Some user ->
         balance user = 20 -> amount = 10 ->
         let '(first, kv1) := chargeUser userId amount kv in
         let '(second, kv2) := chargeUser userId amount kv1 in
         let '(third, kv3) := chargeUser userId amount kv2 in
         first = ok (with_balance user 10) /\ second = ok (with_balance user 0)
         /\ third = err (mkError "Insufficient balance")
         /\ kv_users kv3 !! key = Some (with_balance user 0))
  /\ (forall user,
         kv_users kv !! key = Some user -> balance user = 5 -> amount = 10 ->
         (chargeUser userId amount kv).1 = err (mkError "Insufficient balance")
         /\ balance <$> kv_users (chargeUser userId amount kv).2 !! key = Some 5).
Proof.
  intros key Hget. split; [| split; [| split; [| split]]].
  - intros user Huser Hbal Hset updated.
    rewrite (chargeUser_sufficient _ _ _ user) by done. fold key. fold updated.
    split; [done |]. split; [done |]. split; [simpl; lia |].
    simpl. apply lookup_insert_eq.
  - intros user Huser Hbal. rewrite (chargeUser_insufficient _ _ _ user) by done.
    now split.
  - intros Huser. now apply chargeUser_absent.
  - intros user Hrel Huser Hbal ->.
    rewrite (chargeUser_sufficient _ _ _ user) by (try done; try apply Hrel; lia).
    fold key. rewrite Hbal.
    set (kv1 := with_user key _ _).
    assert (Hrel1 : reliable kv1) by apply reliable_with_user, reliable_attempted, Hrel.
    rewrite (chargeUser_sufficient userId 10 kv1 (with_balance user (20 - 10)));
      [| apply Hrel1 | apply lookup_insert_eq | simpl; lia | apply Hrel1].
    fold key. simpl balance. unfold with_balance at 1 2. simpl.
    set (kv2 := with_user key _ _).
    assert (Hrel2 : reliable kv2) by apply reliable_with_user, reliable_attempted, Hrel1.
    rewrite (chargeUser_insufficient userId 10 kv2 (with_balance user 0));
      [| apply Hrel2 | apply lookup_insert_eq | simpl; lia].
    repeat split. simpl. apply lookup_insert_eq.
  - intros user Huser Hbal ->.
    rewrite (chargeUser_insufficient _ _ _ user) by (try done; lia). simpl.
    fold key. rewrite Huser. simpl. now rewrite Hbal.
Qed.

End Biller.

Lemma chargeUser_debits_or_refuses_witness :
  chargeUser "tok" 10 (account_kv "tok" 20)
  = (ok (demo_user "tok" 10),
     with_user "user:tok" (demo_user "tok" 10)
       (kv_attempted (KvGet "user:tok") (account_kv "tok" 20)))
  /\ (chargeUser "tok" 10 (account_kv "tok" 5)).1 = err (mkError "Insufficient balance")
  /\ (chargeUser "tok" 10 (@empty_kv string)).1 = err (mkError "User not found").
Proof.
  split; [| split].
  - destruct (chargeUser_debits_or_refuses "tok" 10 (account_kv "tok" 20) eq_refl)
      as (Hdebit & _).
    apply (Hdebit (demo_user "tok" 20)); [reflexivity | simpl; lia | reflexivity].
  - destruct (chargeUser_debits_or_refuses "tok" 10 (account_kv "tok" 5) eq_refl)
      as (_ & Hrefuse & _).
    destruct (Hrefuse (demo_user "tok" 5)) as [-> _]; [reflexivity | simpl; lia |].
    reflexivity.
  - destruct (chargeUser_debits_or_refuses "tok" 10 (@empty_kv string) eq_refl)
      as (_ & _ & Habsent & _).
    rewrite Habsent; reflexivity.
Defined.

(** ** User-state resolution *)

Lemma parseRequestData_token_not_empty request :
  authToken (parseRequestData request) <> Some "".
Proof.
  unfold parseRequestData. simpl.
  destruct (header_authorization request) as [h|]; simpl; [| done].
  unfold truthy, truthy_nullable, truthy, truthy_string.
  destruct (replace_first "Bearer " "" h); done.
Qed.

(** C6: [determineUserState] yields one state for every request.  Without a
    token (absent or empty; a parsed request never carries an empty one) the
    state is anonymous under the fallback identity "anonymous" and the store is
    not consulted.  With a token, the account is read under [user:TOKEN]: a
    read that throws, or finds nothing, gives anonymous under the token
    itself; an account with [balance <= 0] gives insufficient balance; any
    other account gives authenticated, and its balance is positive. *)
Theorem determineUserState_classifies (T : Type) (requestData : RequestData) (kv : Kv T) :
  (truthy (authToken requestData) = false ->
   determineUserState requestData kv = (anonymous "anonymous", kv))
  /\ (forall token,
         authToken requestData = Some token -> token <> "" ->
         let key := "user:" +:+ token in
         let kv1 := kv_attempted (KvGet key) kv in
         (forall e, kv_fault kv (kv_log kv) (KvGet key) = Some e ->
                    determineUserState requestData kv = (anonymous token, kv1))
         /\ (kv_fault kv (kv_log kv) (KvGet key) = None ->
             (kv_users kv !! key = None ->
              determineUserState requestData kv = (anonymous token, kv1))
             /\ (forall user,
                    kv_users kv !! key = Some user -> balance user <= 0 ->
                    determineUserState requestData kv = (insufficient_balance user, kv1))
             /\ (forall user,
                    kv_users kv !! key = Some user -> balance user > 0 ->
                    determineUserState requestData kv = (authenticated user, kv1))))
  /\ (forall request, authToken (parseRequestData request) <> Some "").
Proof.
  split; [| split].
  - unfold determineUserState. destruct (authToken requestData) as [[|c s]|]; done.
  - intros token Htok Hne key kv1. unfold determineUserState. rewrite Htok.
    assert (Htruthy : truthy token = true) by (destruct token; done).
    rewrite Htruthy. simpl. split.
    + intros e Hf. unfold getUserByToken. now rewrite (kv_get_err Users _ _ e).
    + intros Hf. rewrite getUserByToken_ok by done. fold key. fold kv1.
      split; [| split].
      * now intros ->.
      * intros user -> Hbal. simpl. destruct (balance user <=? 0) eqn:E; [done | lia].
      * intros user -> Hbal. simpl. destruct (balance user <=? 0) eqn:E; [lia | done].
  - apply parseRequestData_token_not_empty.
Qed.

Lemma determineUserState_classifies_witness :
  determineUserState (parseRequestData (get_request "/x" [] None)) (account_kv "tok" 3)
  = (anonymous "anonymous", account_kv "tok" 3)
  /\ (determineUserState (parseRequestData (get_request "/x" [] (Some "Bearer nobody")))
        (account_kv "tok" 3)).1 = anonymous "nobody"
  /\ (determineUserState (parseRequestData (get_request "/x" [] (Some "Bearer tok")))
        (account_kv "tok" 0)).1 = insufficient_balance (demo_user "tok" 0)
  /\ (determineUserState (parseRequestData (get_request "/x" [] (Some "Bearer tok")))
        (account_kv "tok" 3)).1 = authenticated (demo_user "tok" 3).
Proof.
  split; [| split; [| split]].
  - apply determineUserState_classifies. reflexivity.
  - destruct (determineUserState_classifies string
                (parseRequestData (get_request "/x" [] (Some "Bearer nobody")))
                (account_kv "tok" 3)) as (_ & Htoken & _).
    destruct (Htoken "nobody" eq_refl) as (_ & Hread); [discriminate |].
    destruct (Hread eq_refl) as (-> & _); reflexivity.
  - destruct (determineUserState_classifies string
                (parseRequestData (get_request "/x" [] (Some "Bearer tok")))
                (account_kv "tok" 0)) as (_ & Htoken & _).
    destruct (Htoken "tok" eq_refl) as (_ & Hread); [discriminate |].
    destruct (Hread eq_refl) as (_ & Hpoor & _).
    rewrite (Hpoor (demo_user "tok" 0)); [reflexivity | reflexivity | simpl; lia].
  - destruct (determineUserState_classifies string
                (parseRequestData (get_request "/x" [] (Some "Bearer tok")))
                (account_kv "tok" 3)) as (_ & Htoken & _).
    destruct (Htoken "tok" eq_refl) as (_ & Hread); [discriminate |].
    destruct (Hread eq_refl) as (_ & _ & Hrich).
    rewrite (Hrich (demo_user "tok" 3)); [reflexivity | reflexivity | simpl; lia].
Defined.

(** ** The orchestrator *)

Section OrchestratorFacts.
Context `{Collator}.

(** C3: for a request that is not OPTIONS and whose cache lookup hits, the
    handler returns at once the 200 response composed from the cached body
    (the body itself for json and markdown, its HTML rendering for html) with
    [X-Cache: HIT].  The store it leaves is the given one with that single
    cache read recorded: no account is read, no rate-limit record is read or
    written, no balance is charged, nothing is cached, and the caller's
    handler plays no part, whatever accounts and rate-limit records the store
    holds. *)
Theorem cache_hit_short_circuits (config : Config) (kv : Kv string)
        (env : gmap string string) (now : Z) (request : Request) (value : string) :
  let requestData := parseRequestData request in
  let responseFormat := getResponseFormat requestData in
  let cacheKey :=
    createCacheKey config (pathname requestData) (searchParams requestData)
      responseFormat in
  method request <> "OPTIONS" ->
  (getFromCache cacheKey kv).1 = ok (hit value) ->
  handleRequest config kv env now request
  = (returned (createSuccessResponse value responseFormat HIT),
     kv_attempted (KvGet cacheKey) kv)
  /\ (exists response,
         (handleRequest config kv env now request).1 = returned response
         /\ status response = 200
         /\ header "X-Cache" response = Some "HIT"
         /\ body response
            = BodyText (match responseFormat with
                        | html => markdownToHtml value
                        | _ => value
                        end))
  /\ (let kv' := (handleRequest config kv env now request).2 in
      kv_users kv' = kv_users kv /\ kv_ratelimits kv' = kv_ratelimits kv
      /\ kv_cache kv' = kv_cache kv
      /\ kv_log kv' = (kv_log kv ++ [KvGet cacheKey])%list).
Proof.
  intros requestData responseFormat cacheKey Hm Hhit.
  assert (E : handleRequest config kv env now request
              = (returned (createSuccessResponse value responseFormat HIT),
                 kv_attempted (KvGet cacheKey) kv)).
  { rewrite handleRequest_not_options by done. cbv zeta.
    fold requestData. fold responseFormat. fold cacheKey.
    pose proof (getFromCache_store kv cacheKey) as Hstore.
    destruct (getFromCache cacheKey kv) as [res kv1]. simpl in *. now subst. }
  rewrite E. split; [done |]. split; [| done].
  eexists. split; [reflexivity |].
  simpl. split; [done |]. split; [| now destruct responseFormat].
  now destruct responseFormat.
Qed.

Lemma determineUserState_authenticated_positive {T} requestData (kv : Kv T) user kv1 :
  determineUserState requestData kv = (authenticated user, kv1) -> balance user > 0.
Proof.
  unfold determineUserState.
  destruct (authToken requestData) as [token|]; [| discriminate].
  destruct (negb (truthy token)); [discriminate |].
  destruct (getUserByToken token kv) as [[[u|]|e] kv']; try discriminate.
  simpl. destruct (balance u <=? 0) eqn:E; [discriminate |].
  intros [= <- _]. lia.
Qed.

(** C7: no request reaches the caller's handler.  The outcome of
    [handleRequest] and the store it leaves are the same whatever the handler
    of the configuration is.  A request that is not OPTIONS, is not served
    from the cache and is allowed by the rate limiter never gets as far as the
    context and the handler call: [handleRequest] throws the [TypeError] of
    calling [exhaustive] on a promise, and the only thing that has happened
    after the rate limiter is the charge of an authenticated account, which
    was started before the throw. *)
Theorem handler_is_never_reached (config : Config) (kv : Kv string)
        (env : gmap string string) (now : Z) (request : Request) :
  (forall handler,
      handleRequest (with_fetch config handler) kv env now request
      = handleRequest config kv env now request)
  /\ (forall userState kv1 kv2 n,
         method request <> "OPTIONS" -> not_cached config kv request ->
         determineUserState (parseRequestData request)
           (kv_attempted (KvGet (cache_key_of config request)) kv) = (userState, kv1) ->
         checkRateLimit config now userState kv1 = (ok (allowed n), kv2) ->
         handleRequest config kv env now request
         = (threw (not_a_function "exhaustive"),
            match userState with
            | authenticated user =>
                (chargeUser (access_token user) (priceCredit config) kv2).2
            | anonymous _ | insufficient_balance _ => kv2
            end)).
Proof.
  split; [reflexivity |].
  intros userState kv1 kv2 n Hm Hc Hstate Hrate.
  rewrite handleRequest_not_cached by done.
  unfold afterCacheMiss. rewrite Hstate, Hrate. f_equal.
  destruct userState as [clientId | user | user]; try reflexivity.
  apply determineUserState_authenticated_positive in Hstate.
  unfold chargeStep. destruct (balance user >? 0) eqn:E; [reflexivity | lia].
Qed.

End OrchestratorFacts.

Lemma cache_hit_short_circuits_witness :
  handleRequest (H := ordinal) (demo_config 2 None) (exhausted_kv "cached") ∅ 1000
    (get_request "/x" [] None)
  = (returned (createSuccessResponse "cached" json HIT),
     kv_attempted (KvGet "cache:v1:/x::json") (exhausted_kv "cached")).
Proof.
  apply (cache_hit_short_circuits (H := ordinal) (demo_config 2 None)
           (exhausted_kv "cached") ∅ 1000 (get_request "/x" [] None) "cached");
    [discriminate | reflexivity].
Defined.

Lemma handler_is_never_reached_witness :
  handleRequest (H := ordinal) (demo_config 2 None) (account_kv "tok" 3) ∅ 1000
    (get_request "/x" [] (Some "Bearer tok"))
  = (threw (not_a_function "exhaustive"),
     with_user "user:tok" (demo_user "tok" 2)
       (kv_attempted (KvGet "user:tok")
          (kv_attempted (KvGet "user:tok")
             (kv_attempted (KvGet "cache:v1:/x::json") (account_kv "tok" 3))))).
Proof.
  destruct (handler_is_never_reached (H := ordinal) (demo_config 2 None)
              (account_kv "tok" 3) ∅ 1000 (get_request "/x" [] (Some "Bearer tok")))
    as [_ Hthrows].
  apply (Hthrows (authenticated (demo_user "tok" 3))
           (kv_attempted (KvGet "user:tok")
              (kv_attempted (KvGet "cache:v1:/x::json") (account_kv "tok" 3)))
           (kv_attempted (KvGet "user:tok")
              (kv_attempted (KvGet "cache:v1:/x::json") (account_kv "tok" 3)))
           3); [discriminate | vm_compute; exact I | reflexivity | reflexivity].
Defined.

(** ** The stable sort *)

Section StableSort.
Context {A : Type} (cmp : A -> A -> Z).
Hypothesis cmp_total : forall a b, cmp a b <= 0 \/ cmp b a <= 0.
Hypothesis cmp_trans : forall a b c, cmp a b <= 0 -> cmp b c <= 0 -> cmp a c <= 0.











End StableSort.

(** ** The cache key *)

Section CacheKey.
Context `{Collator}.






End CacheKey.




Lemma append_inj_l (p a b : string) : p +:+ a = p +:+ b -> a = b.
Proof. induction p as [| c p IH]; simpl; [done |]. intros [= E]. now apply IH. Qed.


(** ** The markdown transform *)


Section ReplaceFacts.
Variable m : Matcher.



(** Where the matcher is blind, the input is copied. *)
Lemma replace_global_blind p prev a s :
  blind_to m p -> str_all p a = true ->
  replace_global m prev O (a +:+ s) = a +:+ replace_global m (prev_after prev a) O s.
Proof.
  intros Hblind. revert prev. induction a as [| c a IH]; intros prev Ha; [done |].
  simpl in Ha. apply andb_true_iff in Ha as [Hc Ha].
  rewrite !append_cons. cbn [replace_global prev_after].
  rewrite (Hblind prev c (a +:+ s) Hc). now rewrite IH.
Qed.

Lemma replace_all_blind p s :
  blind_to m p -> str_all p s = true -> replace_all m s = s.
Proof.
  intros Hblind Hs. unfold replace_all.
  rewrite <- (append_nil_r s) at 1.
  rewrite (replace_global_blind p) by done.
  destruct (prev_after None s); now rewrite append_nil_r.
Qed.

End ReplaceFacts.

Section MatcherFacts.

Lemma newline_blind : blind_to newline (fun c => negb (is_newline c)).
Proof.
  intros prev c r Hc. apply negb_true_iff in Hc. unfold newline.
  unfold is_newline in Hc. now rewrite Hc.
Qed.

Lemma delimited_blind delim tag :
  blind_to (delimited (String "*" delim) tag) (fun c => negb (is_star c)).
Proof.
  intros prev c r Hc. apply negb_true_iff in Hc. unfold delimited.
  cbn [strip_prefix].
  unfold is_star in Hc. rewrite Ascii.eqb_sym in Hc. now rewrite Hc.
Qed.


(** Within one line, a heading can only start at the start of the line. *)
Lemma heading_off_line marker tag prev s :
  at_line_start prev = false \/ strip_prefix marker s = None ->
  free_of is_line_terminator s ->
  replace_global (heading marker tag) prev O s = s.
Proof.
  revert prev. unfold free_of.
  induction s as [| c s IH]; intros prev Hstart Hline; [done |].
  simpl in Hline. apply andb_true_iff in Hline as [Hc Hline].
  apply negb_true_iff in Hc.
  cbn [replace_global].
  assert (Hnone : heading marker tag prev (String c s) = None).
  { unfold heading. destruct Hstart as [-> | ->]; [done |].
    now destruct (at_line_start prev). }
  rewrite Hnone. f_equal. apply IH; [| done]. left. exact Hc.
Qed.

Lemma heading_stage_line marker tag s :
  free_of is_line_terminator s -> strip_prefix marker s = None ->
  replace_all (heading marker tag) s = s.
Proof. intros Hline Hstart. apply heading_off_line; [now right | done]. Qed.



Lemma delimited_stage_blind delim tag s :
  free_of is_star s -> replace_all (delimited (String "*" delim) tag) s = s.
Proof. intros Hs. eapply replace_all_blind; [apply delimited_blind | exact Hs]. Qed.


Lemma newline_stage_blind s : free_of is_newline s -> replace_all newline s = s.
Proof. intros Hs. eapply replace_all_blind; [apply newline_blind | exact Hs]. Qed.



End MatcherFacts.

Section ReplaceMore.
Variable m : Matcher.

Lemma replace_global_copy p prev s :
  blind_to m p -> str_all p s = true -> replace_global m prev O s = s.
Proof.
  intros Hblind Hs. rewrite <- (append_nil_r s) at 1.
  rewrite (replace_global_blind m p) by done.
  destruct (prev_after prev s); now rewrite append_nil_r.
Qed.



End ReplaceMore.

Section MarkdownFacts.



(** What the last three stages do to a line that holds no asterisk. *)
Lemma inline_stages s :
  inline_text s ->
  replace_all newline
    (replace_all (delimited "*" "em") (replace_all (delimited "**" "strong") s)) = s.
Proof.
  intros [Hstar Hline].
  rewrite (delimited_stage_blind "*" "strong") by done.
  rewrite (delimited_stage_blind "" "em") by done.
  now apply newline_stage_blind, free_of_newline.
Qed.







End MarkdownFacts.

Section SecondLine.






End SecondLine.



(** * Further properties of the module *)

(** ** Request parsing *)

Section ParsingFacts.

Lemma replace_first_unfold pat rep s :
  replace_first pat rep s
  = match strip_prefix pat s with
    | Some rest => rep +:+ rest
    | None =>
        match s with
        | EmptyString => EmptyString
        | String c r => String c (replace_first pat rep r)
        end
    end.
Proof. now destruct s. Qed.

Lemma includes_unfold s sub :
  includes s sub
  = match strip_prefix sub s with
    | Some _ => true
    | None => match s with EmptyString => false | String _ r => includes r sub end
    end.
Proof. now destruct s. Qed.

Lemma replace_first_prefix pat rep t : replace_first pat rep (pat +:+ t) = rep +:+ t.
Proof. rewrite replace_first_unfold. now rewrite strip_prefix_append. Qed.

Lemma replace_first_absent pat rep s :
  includes s pat = false -> replace_first pat rep s = s.
Proof.
  induction s as [| c s IH]; intros Hs; rewrite replace_first_unfold;
    rewrite includes_unfold in Hs.
  - now destruct (strip_prefix pat "").
  - destruct (strip_prefix pat (String c s)); [discriminate |]. now rewrite IH.
Qed.

Lemma truthy_token_cases (t : string) :
  (if truthy (Some t) then Some t else None) = (if truthy t then Some t else None).
Proof. reflexivity. Qed.

End ParsingFacts.

(** X1: the token [parseRequestData] extracts is the Authorization header with
    its first "Bearer " removed, and an empty remainder counts as no token.
    So "Bearer T" gives the token T (none when T is empty), a header in which
    "Bearer " does not occur is taken whole as the token, whatever scheme it
    names, and a missing header gives no token; a missing Accept header reads
    as the empty string. *)
Theorem parseRequestData_token (request : Request) :
  (forall t, header_authorization request = Some ("Bearer " +:+ t) ->
             authToken (parseRequestData request) = if truthy t then Some t else None)
  /\ (forall h, header_authorization request = Some h -> includes h "Bearer " = false ->
                authToken (parseRequestData request) = if truthy h then Some h else None)
  /\ (header_authorization request = None -> authToken (parseRequestData request) = None)
  /\ (header_accept request = None -> acceptHeader (parseRequestData request) = "").
Proof.
  unfold parseRequestData. cbn [authToken acceptHeader]. split; [| split; [| split]].
  - intros t ->. cbn [fmap option_fmap option_map].
    rewrite (replace_first_prefix "Bearer " "" t). rewrite append_nil_l.
    apply truthy_token_cases.
  - intros h -> Hh. cbn [fmap option_fmap option_map].
    rewrite replace_first_absent by done. apply truthy_token_cases.
  - now intros ->.
  - now intros ->.
Qed.

Lemma parseRequestData_token_witness :
  authToken (parseRequestData (get_request "/x" [] (Some ("Bearer " +:+ "token123"))))
  = Some "token123"
  /\ authToken (parseRequestData (get_request "/x" [] (Some "Basic abc"))) = Some "Basic abc"
  /\ authToken (parseRequestData (get_request "/x" [] None)) = None.
Proof.
  split; [| split].
  - destruct (parseRequestData_token
                (get_request "/x" [] (Some ("Bearer " +:+ "token123")))) as (Hbearer & _).
    apply (Hbearer "token123"). reflexivity.
  - destruct (parseRequestData_token (get_request "/x" [] (Some "Basic abc")))
      as (_ & Hwhole & _).
    apply (Hwhole "Basic abc"); reflexivity.
  - destruct (parseRequestData_token (get_request "/x" [] None)) as (_ & _ & Hnone & _).
    apply Hnone. reflexivity.
Defined.

(** ** Format negotiation *)

Section FormatFacts.

Lemma after_last_none e : free_of is_dot e -> after_last "."%char e = None.
Proof.
  unfold free_of. induction e as [| c e IH]; [done |]. simpl.
  intros [Hc He]%andb_true_iff. apply negb_true_iff in Hc.
  rewrite IH by done. unfold is_dot in Hc. now rewrite Hc.
Qed.

Lemma after_last_found p e :
  free_of is_dot e -> after_last "."%char (p +:+ "." +:+ e) = Some e.
Proof.
  intros He. induction p as [| c p IH].
  - rewrite append_nil_l, append_cons, append_nil_l. cbn [after_last].
    now rewrite after_last_none.
  - rewrite append_cons. cbn [after_last]. now rewrite IH.
Qed.

Lemma split_dot_pop_extension p e : free_of is_dot e -> split_dot_pop (p +:+ "." +:+ e) = e.
Proof. intros He. unfold split_dot_pop. now rewrite after_last_found. Qed.

Lemma split_dot_pop_whole s : free_of is_dot s -> split_dot_pop s = s.
Proof. intros Hs. unfold split_dot_pop. now rewrite after_last_none. Qed.

End FormatFacts.

(** X2: in [getResponseFormat] the extension decides before the Accept header
    is looked at.  When the pathname ends in a dot followed by a dot-free
    [e], then [e] equal to html in any letter case gives html, and md or
    markdown gives markdown, whatever the Accept header says; any other [e],
    and any pathname without a dot, leaves the choice to the Accept header:
    html if it contains text/html (even when it also contains text/markdown),
    else markdown if it contains text/markdown, else json. *)
Theorem getResponseFormat_extension_first (requestData : RequestData) :
  let by_accept :=
    if includes (acceptHeader requestData) "text/html" then html
    else if includes (acceptHeader requestData) "text/markdown" then markdown
    else json in
  (forall p e,
      pathname requestData = p +:+ "." +:+ e -> free_of is_dot e ->
      (toLowerCase e = "html" -> getResponseFormat requestData = html)
      /\ (toLowerCase e = "md" \/ toLowerCase e = "markdown" ->
          getResponseFormat requestData = markdown)
      /\ (toLowerCase e <> "html" -> toLowerCase e <> "md" ->
          toLowerCase e <> "markdown" ->
          getResponseFormat requestData = by_accept))
  /\ (forall q,
         pathname requestData = "/" +:+ q -> free_of is_dot q ->
         getResponseFormat requestData = by_accept).
Proof.
  intros by_accept. split.
  - intros p e Hp He. unfold getResponseFormat. rewrite Hp.
    rewrite split_dot_pop_extension by done. split; [| split].
    + now intros ->.
    + intros [-> | ->]; reflexivity.
    + intros H1 H2 H3.
      apply String.eqb_neq in H1, H2, H3. now rewrite H1, H2, H3.
  - intros q Hp Hq. unfold getResponseFormat. rewrite Hp.
    rewrite split_dot_pop_whole by (now apply free_of_append).
    rewrite append_cons. reflexivity.
Qed.

Lemma getResponseFormat_extension_first_witness :
  getResponseFormat (mkRequestData ("/a.b/page" +:+ "." +:+ "HTML") [] None "text/markdown")
  = html
  /\ getResponseFormat (mkRequestData ("/notes" +:+ "." +:+ "md") [] None "text/html")
     = markdown
  /\ getResponseFormat (mkRequestData ("/" +:+ "api") [] None "text/markdown, text/html")
     = html.
Proof.
  split; [| split].
  - destruct (getResponseFormat_extension_first
                (mkRequestData ("/a.b/page" +:+ "." +:+ "HTML") [] None "text/markdown"))
      as (Hext & _).
    destruct (Hext "/a.b/page" "HTML" eq_refl eq_refl) as (Hhtml & _).
    apply Hhtml. reflexivity.
  - destruct (getResponseFormat_extension_first
                (mkRequestData ("/notes" +:+ "." +:+ "md") [] None "text/html"))
      as (Hext & _).
    destruct (Hext "/notes" "md" eq_refl eq_refl) as (_ & Hmd & _).
    apply Hmd. left. reflexivity.
  - destruct (getResponseFormat_extension_first
                (mkRequestData ("/" +:+ "api") [] None "text/markdown, text/html"))
      as (_ & Hplain).
    apply (Hplain "api"); reflexivity.
Defined.

(** ** How every call settles *)

Section ResponseShape.
Context `{Collator}.

(** What a response can be: the preflight answer, a cached body, or a
    rejection with one of the two messages. *)
Definition well_shaped (config : Config) (env : gmap string string)
           (response : Response) : Prop :=
  response = createOptionsResponse
  \/ (exists text format, response = createSuccessResponse text format HIT)
  \/ (exists message, rejection_message config message
                      /\ response = createPaymentRequiredResponse env message).

(** How a call can settle: with such a response, or with the throw of the
    match on the user state. *)
Definition well_settled (config : Config) (env : gmap string string)
           (outcome : Settled) : Prop :=
  match outcome with
  | returned response => well_shaped config env response
  | threw error => error = not_a_function "exhaustive"
  end.

Lemma afterCacheMiss_shape config env now request requestData format cacheKey
      (kv : Kv string) :
  match (afterCacheMiss config env now request requestData format cacheKey kv).1 with
  | returned response =>
      exists message, rejection_message config message
                      /\ response = createPaymentRequiredResponse env message
  | threw error => error = not_a_function "exhaustive"
  end.
Proof.
  unfold afterCacheMiss.
  destruct (determineUserState requestData kv) as [userState kv1].
  destruct (checkRateLimit config now userState kv1) as [[[n | r] | e] kv2]; cbn [fst].
  - reflexivity.
  - eexists. split; [| reflexivity]. now right.
  - eexists. split; [| reflexivity]. now left.
Qed.

Lemma handleRequest_shape config kv env now request :
  well_settled config env (handleRequest config kv env now request).1.
Proof.
  assert (Hmiss : forall requestData format cacheKey kv1,
             well_settled config env
               (afterCacheMiss config env now request requestData format cacheKey kv1).1).
  { intros requestData format cacheKey kv1.
    pose proof (afterCacheMiss_shape config env now request requestData format cacheKey kv1)
      as Hshape.
    destruct (afterCacheMiss config env now request requestData format cacheKey kv1).1
      as [response | error]; [| exact Hshape].
    right. right. exact Hshape. }
  unfold handleRequest. destruct (String.eqb (method request) "OPTIONS").
  - now left.
  - cbv zeta. destruct (getFromCache _ kv) as [[[value |] | e] kv1].
    + right. left. now eexists _, _.
    + apply Hmiss.
    + apply Hmiss.
Qed.

Lemma well_shaped_cors config env response :
  well_shaped config env response -> has_cors_headers response.
Proof.
  intros [-> | [(text & format & ->) | (message & _ & ->)]].
  - repeat split.
  - destruct format; repeat split.
  - repeat split.
Qed.

(** X3: how a call of [handleRequest] settles, whatever the request and the
    store.  If it throws, it is the [TypeError] of the match on the user
    state, and the request was not OPTIONS.  If it returns a response, the
    status is 200 or 402 and the three cross-origin headers are there; a 402
    is the JSON payment-required body with the payment link of the
    environment and one of two messages (rate-limit check failed, free limit
    exceeded); a 200 with a body is a cache hit, with X-Cache HIT: no response
    ever carries a fresh answer of the handler.  An OPTIONS request gets the
    body-less preflight answer and the store is not touched. *)
Theorem handleRequest_response_invariants (config : Config) (kv : Kv string)
        (env : gmap string string) (now : Z) (request : Request) :
  let outcome := (handleRequest config kv env now request).1 in
  (forall error, outcome = threw error ->
                 error = not_a_function "exhaustive" /\ method request <> "OPTIONS")
  /\ (forall response,
         outcome = returned response ->
         (status response = 200 \/ status response = 402)
         /\ has_cors_headers response
         /\ (status response = 402 ->
             exists message,
               rejection_message config message
               /\ body response
                  = BodyJson (mkPaymentRequiredBody "Payment Required" message
                                (env !! "STRIPE_PAYMENT_LINK") 402)
               /\ header "Content-Type" response = Some "application/json")
         /\ (status response = 200 -> body response <> BodyNull ->
             header "X-Cache" response = Some "HIT"))
  /\ (method request = "OPTIONS" ->
      handleRequest config kv env now request = (returned createOptionsResponse, kv)).
Proof.
  intros outcome. pose proof (handleRequest_shape config kv env now request) as Hshape.
  fold outcome in Hshape.
  assert (Hoptions : method request = "OPTIONS" ->
                     handleRequest config kv env now request
                     = (returned createOptionsResponse, kv))
    by (intros Hm; unfold handleRequest; now rewrite Hm).
  split; [| split; [| exact Hoptions]].
  - intros error E. rewrite E in Hshape. split; [exact Hshape |].
    intros Hm. subst outcome. rewrite (Hoptions Hm) in E. discriminate E.
  - intros response E. rewrite E in Hshape. cbn [well_settled] in Hshape.
    split; [| split; [| split]].
    + destruct Hshape as [-> | [(text & format & ->) | (message & _ & ->)]];
        [now left | now left | now right].
    + eapply well_shaped_cors, Hshape.
    + destruct Hshape as [-> | [(text & format & ->) | (message & Hm & ->)]];
        [discriminate | discriminate |].
      intros _. now exists message.
    + destruct Hshape as [-> | [(text & format & ->) | (message & _ & ->)]].
      * now intros _ Hbody.
      * intros _ _. now destruct format.
      * discriminate.
Qed.

End ResponseShape.

Lemma handleRequest_response_invariants_witness :
  (not_a_function "exhaustive" = not_a_function "exhaustive"
   /\ method (get_request "/x" [] None) <> "OPTIONS")
  /\ has_cors_headers
       (createPaymentRequiredResponse ∅
          "Free rate limit exceeded. Limit: 2 requests per 3600 seconds.")
  /\ handleRequest (H := ordinal) (demo_config 2 None) (exhausted_kv "") ∅ 1000
       (mkRequest "OPTIONS" "/x" [] None None)
     = (returned createOptionsResponse, exhausted_kv "").
Proof.
  split; [| split].
  - apply (handleRequest_response_invariants (H := ordinal) (demo_config 2 None)
             empty_kv ∅ 1000 (get_request "/x" [] None)).
    reflexivity.
  - apply (handleRequest_response_invariants (H := ordinal) (demo_config 2 None)
             (exhausted_kv "") ∅ 1000 (get_request "/x" [] None)).
    reflexivity.
  - apply (handleRequest_response_invariants (H := ordinal) (demo_config 2 None)
             (exhausted_kv "") ∅ 1000 (mkRequest "OPTIONS" "/x" [] None None)).
    reflexivity.
Defined.

(** ** The cache around the pipeline *)

Section CacheAround.
Context `{Collator}.

Lemma handleRequest_cache_read_throws config kv env now request e :
  method request <> "OPTIONS" ->
  kv_fault kv (kv_log kv) (KvGet (cache_key_of config request)) = Some e ->
  handleRequest config kv env now request
  = afterCacheMiss config env now request (parseRequestData request)
      (getResponseFormat (parseRequestData request)) (cache_key_of config request)
      (kv_attempted (KvGet (cache_key_of config request)) kv).
Proof.
  intros Hm Hf. rewrite handleRequest_not_options by done. cbv zeta.
  fold (cache_key_of config request). unfold getFromCache.
  now rewrite (kv_get_err Cache _ _ e).
Qed.

(** X4: a cache read that throws is taken as a miss.  The request goes on to
    user resolution and the rate limiter exactly as if the entry were absent,
    and what the cache holds under its key is not served: if the call returns
    a response at all, it is a 402. *)
Theorem cache_read_failure_is_a_miss (config : Config) (kv : Kv string)
        (env : gmap string string) (now : Z) (request : Request) (e : Error) :
  method request <> "OPTIONS" ->
  kv_fault kv (kv_log kv) (KvGet (cache_key_of config request)) = Some e ->
  handleRequest config kv env now request
  = afterCacheMiss config env now request (parseRequestData request)
      (getResponseFormat (parseRequestData request)) (cache_key_of config request)
      (kv_attempted (KvGet (cache_key_of config request)) kv)
  /\ forall response,
       (handleRequest config kv env now request).1 = returned response ->
       status response = 402.
Proof.
  intros Hm Hf.
  rewrite (handleRequest_cache_read_throws config kv env now request e Hm Hf).
  split; [reflexivity |]. intros response E.
  pose proof (afterCacheMiss_shape config env now request (parseRequestData request)
                (getResponseFormat (parseRequestData request))
                (cache_key_of config request)
                (kv_attempted (KvGet (cache_key_of config request)) kv)) as Hshape.
  rewrite E in Hshape. now destruct Hshape as (message & _ & ->).
Qed.

End CacheAround.

Lemma cache_read_failure_is_a_miss_witness :
  handleRequest (H := ordinal) (demo_config 2 (Some 300)) (down_kv "cache:") ∅ 1000
    (get_request "/x" [] None)
  = afterCacheMiss (demo_config 2 (Some 300)) ∅ 1000 (get_request "/x" [] None)
      (parseRequestData (get_request "/x" [] None)) json "cache:v1:/x::json"
      (kv_attempted (KvGet "cache:v1:/x::json") (down_kv "cache:")).
Proof.
  apply (cache_read_failure_is_a_miss (H := ordinal) (demo_config 2 (Some 300))
           (down_kv "cache:") ∅ 1000 (get_request "/x" [] None) (mkError "store down"));
    [discriminate | reflexivity].
Defined.

(** ** More on the rate limiter *)

Section RateLimiterMore.
Context {T : Type}.
Implicit Types kv : Kv T.

(** The record the check works on: the stored one while its window lasts,
    a fresh one otherwise. *)
Definition effective_record (config : Config) (now : Z) (userId : string) kv
  : RateLimitData :=
  let fresh := mkRateLimitData 0 (now + freeRateLimitResetSeconds config * 1000) in
  match kv_ratelimits kv !! ("ratelimit:" +:+ userId) with
  | None => fresh
  | Some data => if now >? resetTime data then fresh else data
  end.

(** The four ways a free-tier check can go. *)
Lemma checkFreeRateLimit_cases config now clientId kv :
  let key := "ratelimit:" +:+ clientId in
  let kv1 := kv_attempted (KvGet key) kv in
  let eff := effective_record config now clientId kv in
  (exists e, kv_fault kv (kv_log kv) (KvGet key) = Some e
             /\ checkFreeRateLimit config now clientId kv = (err e, kv1))
  \/ (kv_fault kv (kv_log kv) (KvGet key) = None
      /\ count eff >= freeRatelimit config
      /\ checkFreeRateLimit config now clientId kv = (ok (exceeded (resetTime eff)), kv1))
  \/ (kv_fault kv (kv_log kv) (KvGet key) = None
      /\ count eff < freeRatelimit config
      /\ exists e, kv_fault kv1 (kv_log kv1) (KvSet key None) = Some e
                   /\ checkFreeRateLimit config now clientId kv
                      = (err e, kv_attempted (KvSet key None) kv1))
  \/ (kv_fault kv (kv_log kv) (KvGet key) = None
      /\ count eff < freeRatelimit config
      /\ kv_fault kv1 (kv_log kv1) (KvSet key None) = None
      /\ checkFreeRateLimit config now clientId kv
         = (ok (allowed (freeRatelimit config - (count eff + 1))),
            with_ratelimit key (mkRateLimitData (count eff + 1) (resetTime eff)) kv1)).
Proof.
  intros key kv1 eff.
  destruct (kv_fault kv (kv_log kv) (KvGet key)) as [e |] eqn:Hread.
  - left. exists e. split; [done |].
    unfold checkFreeRateLimit, getRateLimitData. fold key.
    now rewrite (kv_get_err RateLimits _ _ e).
  - right.
    assert (Hget : getRateLimitData config now clientId kv = (ok eff, kv1))
      by (now rewrite getRateLimitData_read).
    destruct eff as [c r] eqn:Eeff. cbn [count resetTime].
    destruct (Z_lt_le_dec c (freeRatelimit config)) as [Hc | Hc].
    + right.
      destruct (kv_fault kv1 (kv_log kv1) (KvSet key None)) as [e |] eqn:Hwrite.
      * left. split; [done |]. split; [done |]. exists e. split; [done |].
        unfold checkFreeRateLimit. rewrite Hget. cbn [count resetTime].
        destruct (c >=? freeRatelimit config) eqn:E; [lia |].
        unfold updateRateLimit, kv_set. fold key. now rewrite Hwrite.
      * right. split; [done |]. split; [done |]. split; [done |].
        now apply checkFreeRateLimit_allowed.
    + left. split; [done |]. split; [lia |].
      apply checkFreeRateLimit_exceeded with (c := c); [done | lia].
Qed.

Lemma effective_record_bounds config now clientId kv limit :
  counts_within limit (kv_ratelimits kv) ->
  0 <= count (effective_record config now clientId kv).
Proof.
  intros Hinv. unfold effective_record.
  destruct (kv_ratelimits kv !! ("ratelimit:" +:+ clientId)) as [data |] eqn:E; [| done].
  destruct (now >? resetTime data); [done |]. now apply (Hinv _ _ E).
Qed.

Lemma checkFreeRateLimit_frame config now clientId kv :
  let kv' := (checkFreeRateLimit config now clientId kv).2 in
  kv_users kv' = kv_users kv /\ kv_cache kv' = kv_cache kv /\ kv_fault kv' = kv_fault kv
  /\ forall key, key <> "ratelimit:" +:+ clientId ->
                 kv_ratelimits kv' !! key = kv_ratelimits kv !! key.
Proof.
  destruct (checkFreeRateLimit_cases config now clientId kv)
    as [(e & _ & ->) | [(_ & _ & ->) | [(_ & _ & e & _ & ->) | (_ & _ & _ & ->)]]];
    cbn [snd]; repeat split; try done.
  intros key Hkey. simpl. now apply lookup_insert_ne.
Qed.

End RateLimiterMore.

(** X6: a rate-limit check touches nothing but the record of the identity it
    checks.  Whatever the user state and whether or not the store throws,
    [checkRateLimit] leaves every account, every cache entry and the record
    of every other identity as they were. *)
Theorem checkRateLimit_frame (T : Type) (config : Config) (now : Z)
        (userState : UserState) (kv : Kv T) :
  let kv' := (checkRateLimit config now userState kv).2 in
  kv_users kv' = kv_users kv /\ kv_cache kv' = kv_cache kv /\ kv_fault kv' = kv_fault kv
  /\ forall key, key <> "ratelimit:" +:+ identity_of userState ->
                 kv_ratelimits kv' !! key = kv_ratelimits kv !! key.
Proof.
  destruct userState as [clientId | user | user]; cbn [checkRateLimit identity_of].
  - apply checkFreeRateLimit_frame.
  - destruct (balance user >? 0); [done | apply checkFreeRateLimit_frame].
  - apply checkFreeRateLimit_frame.
Qed.

(** X7: counts stay within bounds.  If every stored count lies between 0
    and the free limit, it still does after a free-tier check, whether the
    check allows, rejects or fails on the store; and the remaining quota an
    allowed check reports is at least 0 and below the limit. *)
Theorem checkFreeRateLimit_keeps_counts_within (T : Type) (config : Config) (now : Z)
        (clientId : string) (kv : Kv T) :
  counts_within (freeRatelimit config) (kv_ratelimits kv) ->
  counts_within (freeRatelimit config)
    (kv_ratelimits (checkFreeRateLimit config now clientId kv).2)
  /\ forall n, (checkFreeRateLimit config now clientId kv).1 = ok (allowed n) ->
               0 <= n < freeRatelimit config.
Proof.
  intros Hinv.
  pose proof (effective_record_bounds config now clientId kv _ Hinv) as Hc.
  destruct (checkFreeRateLimit_cases config now clientId kv)
    as [(e & _ & ->) | [(_ & _ & ->) | [(_ & _ & e & _ & ->) | (_ & Hlt & _ & ->)]]];
    cbn [fst snd]; (split; [| intros n [= <-] || (intros n; discriminate)]); try done.
  - intros key data. simpl.
    destruct (decide (key = "ratelimit:" +:+ clientId)) as [-> | Hne].
    + rewrite lookup_insert_eq. intros [= <-]. simpl. lia.
    + rewrite lookup_insert_ne by done. apply Hinv.
  - lia.
Qed.

Lemma checkFreeRateLimit_keeps_counts_within_witness :
  counts_within 2
    (kv_ratelimits (checkFreeRateLimit (demo_config 2 None) 1000 "anonymous"
                      (@empty_kv string)).2).
Proof.
  apply (checkFreeRateLimit_keeps_counts_within string (demo_config 2 None) 1000
           "anonymous" empty_kv).
  intros key data Hlookup. simpl in Hlookup. rewrite lookup_empty in Hlookup.
  discriminate Hlookup.
Defined.

Section Windows.
Context {T : Type}.
Implicit Types kv : Kv T.

(** With a positive limit, a rejection comes from a stored record that is
    still within its window. *)
Lemma exceeded_has_live_record config now clientId kv r kv1 :
  0 < freeRatelimit config ->
  checkFreeRateLimit config now clientId kv = (ok (exceeded r), kv1) ->
  kv1 = kv_attempted (KvGet ("ratelimit:" +:+ clientId)) kv
  /\ exists c, kv_ratelimits kv !! ("ratelimit:" +:+ clientId) = Some (mkRateLimitData c r)
               /\ c >= freeRatelimit config /\ now <= r.
Proof.
  intros Hpos Hcheck.
  destruct (checkFreeRateLimit_cases config now clientId kv)
    as [(e & _ & E) | [(_ & Hc & E) | [(_ & _ & e & _ & E) | (_ & _ & _ & E)]]];
    rewrite E in Hcheck; try discriminate.
  injection Hcheck as <- <-. split; [done |].
  unfold effective_record in *.
  destruct (kv_ratelimits kv !! ("ratelimit:" +:+ clientId)) as [[c r] |];
    [| simpl in Hc; lia].
  cbn [resetTime] in *. destruct (now >? r) eqn:Enow; [simpl in Hc; lia |].
  exists c. cbn [count resetTime] in *. repeat split; [done | lia].
Qed.

(** The outcome of a check depends on the store only through the record of
    the identity, when the store does not throw. *)
Lemma checkFreeRateLimit_outcome_local config now clientId kv kv' :
  reliable kv -> reliable kv' ->
  kv_ratelimits kv !! ("ratelimit:" +:+ clientId)
  = kv_ratelimits kv' !! ("ratelimit:" +:+ clientId) ->
  (checkFreeRateLimit config now clientId kv).1
  = (checkFreeRateLimit config now clientId kv').1.
Proof.
  intros Hrel Hrel' Hrec. unfold checkFreeRateLimit.
  pose proof (getRateLimitData_read config now clientId kv (Hrel _ _)) as E.
  pose proof (getRateLimitData_read config now clientId kv' (Hrel' _ _)) as E'.
  cbv zeta in E, E'. rewrite <- Hrec in E'. rewrite E, E'.
  destruct (count _ >=? freeRatelimit config); [done |].
  rewrite !updateRateLimit_ok by (apply Hrel || apply Hrel'). reflexivity.
Qed.

Lemma ratelimit_key_inj (a b : string) : "ratelimit:" +:+ a = "ratelimit:" +:+ b -> a = b.
Proof. apply append_inj_l. Qed.

End Windows.

(** X8: the window is fixed, not sliding.  With a positive limit, once a
    check of an identity is rejected with reset time [r], every check of it
    up to and including [r] is rejected with the same [r] and writes
    nothing, however many follow; the first check after [r], on a store
    that does not throw, is allowed, counts as request one and opens a
    window of [freeRateLimitResetSeconds] from that moment. *)
Theorem exceeded_until_reset (T : Type) (config : Config) (now : Z) (clientId : string)
        (kv kv1 : Kv T) (r : Z) :
  let key := "ratelimit:" +:+ clientId in
  0 < freeRatelimit config ->
  checkFreeRateLimit config now clientId kv = (ok (exceeded r), kv1) ->
  (forall later, later <= r ->
                 kv_fault kv1 (kv_log kv1) (KvGet key) = None ->
                 checkFreeRateLimit config later clientId kv1
                 = (ok (exceeded r), kv_attempted (KvGet key) kv1))
  /\ (forall later, r < later -> reliable kv1 ->
                    checkFreeRateLimit config later clientId kv1
                    = (ok (allowed (freeRatelimit config - 1)),
                       with_ratelimit key
                         (mkRateLimitData 1 (later + freeRateLimitResetSeconds config * 1000))
                         (kv_attempted (KvGet key) kv1))).
Proof.
  intros key Hpos Hcheck.
  destruct (exceeded_has_live_record config now clientId kv r kv1 Hpos Hcheck)
    as (-> & c & Hrec & Hc & Hnow).
  split.
  - intros later Hlater Hf.
    apply checkFreeRateLimit_exceeded with (c := c); [| done].
    rewrite getRateLimitData_read by done. cbv zeta.
    change (kv_ratelimits (kv_attempted (KvGet ("ratelimit:" +:+ clientId)) kv))
      with (kv_ratelimits kv).
    rewrite Hrec. cbn [resetTime].
    destruct (later >? r) eqn:E; [lia | done].
  - intros later Hlater Hrel.
    apply checkFreeRateLimit_fresh; [done | | done].
    right. exists (mkRateLimitData c r). split; [exact Hrec | simpl; lia].
Qed.

Lemma exceeded_until_reset_witness :
  checkFreeRateLimit (demo_config 2 None) 5000 "anonymous"
    (kv_attempted (KvGet "ratelimit:anonymous") (exhausted_kv ""))
  = (ok (exceeded 5000),
     kv_attempted (KvGet "ratelimit:anonymous")
       (kv_attempted (KvGet "ratelimit:anonymous") (exhausted_kv "")))
  /\ (checkFreeRateLimit (demo_config 2 None) 5001 "anonymous"
        (kv_attempted (KvGet "ratelimit:anonymous") (exhausted_kv ""))).1
     = ok (allowed 1).
Proof.
  destruct (exceeded_until_reset string (demo_config 2 None) 1000 "anonymous"
              (exhausted_kv "")
              (kv_attempted (KvGet "ratelimit:anonymous") (exhausted_kv "")) 5000)
    as (Hsticky & Hreset); [simpl; lia | reflexivity |].
  split.
  - apply Hsticky; [lia | reflexivity].
  - rewrite Hreset; [reflexivity | lia | intros log op; reflexivity].
Defined.

(** X9: identities are counted independently.  On a store that does not
    throw, a free-tier check of one identity does not change the outcome of
    a check of any other identity. *)
Theorem identities_are_independent (T : Type) (config : Config) (now1 now2 : Z)
        (id1 id2 : string) (kv : Kv T) :
  id1 <> id2 -> reliable kv ->
  (checkFreeRateLimit config now2 id2 (checkFreeRateLimit config now1 id1 kv).2).1
  = (checkFreeRateLimit config now2 id2 kv).1.
Proof.
  intros Hne Hrel.
  destruct (checkFreeRateLimit_frame config now1 id1 kv) as (_ & _ & Hf & Hother).
  apply checkFreeRateLimit_outcome_local; [| done |].
  - intros log op. rewrite Hf. apply Hrel.
  - apply Hother. intros E. apply Hne. symmetry. now apply ratelimit_key_inj.
Qed.

Lemma identities_are_independent_witness :
  (checkFreeRateLimit (demo_config 2 None) 2000 "other"
     (checkFreeRateLimit (demo_config 2 None) 1000 "anonymous" (exhausted_kv "")).2).1
  = (checkFreeRateLimit (demo_config 2 None) 2000 "other" (exhausted_kv "")).1.
Proof.
  apply (identities_are_independent string (demo_config 2 None) 1000 2000
           "anonymous" "other" (exhausted_kv "")); [discriminate |].
  intros log op. reflexivity.
Defined.

(** X10: the rate limiter fails closed.  For a request on the free-tier path,
    when the read of the rate-limit record throws, or the record allows the
    request and the write of the new count throws, the answer is the 402
    with the message "Rate limit check failed"; the handler is not called,
    nothing is charged and no record is written. *)
Theorem rate_limit_store_failure_rejects (config : Config) (env : gmap string string)
        (now : Z) (request : Request) (requestData : RequestData)
        (format : ResponseFormat) (cacheKey : string) (kv kv1 : Kv string)
        (userState : UserState) (identity : string) :
  let key := "ratelimit:" +:+ identity in
  let rejected := returned (createPaymentRequiredResponse env "Rate limit check failed") in
  determineUserState requestData kv = (userState, kv1) ->
  free_tier_identity userState identity ->
  (forall e, kv_fault kv1 (kv_log kv1) (KvGet key) = Some e ->
             afterCacheMiss config env now request requestData format cacheKey kv
             = (rejected, kv_attempted (KvGet key) kv1))
  /\ (forall e, kv_fault kv1 (kv_log kv1) (KvGet key) = None ->
                count (effective_record config now identity kv1) < freeRatelimit config ->
                kv_fault kv1 (kv_log kv1 ++ [KvGet key]) (KvSet key None) = Some e ->
                afterCacheMiss config env now request requestData format cacheKey kv
                = (rejected, kv_attempted (KvSet key None) (kv_attempted (KvGet key) kv1))).
Proof.
  intros key rejected Hstate Hid. unfold afterCacheMiss. rewrite Hstate.
  rewrite (checkRateLimit_free_tier _ _ _ _ _ Hid).
  split.
  - intros e Hread.
    destruct (checkFreeRateLimit_cases config now identity kv1)
      as [(e' & _ & ->) | [(Hok & _) | [(Hok & _) | (Hok & _)]]];
      [done | | |]; fold key in Hok; congruence.
  - intros e Hread Hcount Hwrite.
    destruct (checkFreeRateLimit_cases config now identity kv1)
      as [(e' & Hno & _) | [(_ & Hge & _) | [(_ & _ & e' & _ & ->) | (_ & _ & Hno & _)]]];
      [fold key in Hno; congruence | lia | done |].
    fold key in Hno. simpl in Hno. congruence.
Qed.

Lemma rate_limit_store_failure_rejects_witness :
  afterCacheMiss (demo_config 2 None) ∅ 1000 (get_request "/x" [] None)
    (parseRequestData (get_request "/x" [] None)) json "k" (down_kv "ratelimit:")
  = (returned (createPaymentRequiredResponse ∅ "Rate limit check failed"),
     kv_attempted (KvGet "ratelimit:anonymous") (down_kv "ratelimit:")).
Proof.
  destruct (rate_limit_store_failure_rejects (demo_config 2 None) ∅ 1000
              (get_request "/x" [] None) (parseRequestData (get_request "/x" [] None))
              json "k" (down_kv "ratelimit:") (down_kv "ratelimit:")
              (anonymous "anonymous") "anonymous" eq_refl (or_introl eq_refl))
    as (Hread & _).
  apply (Hread (mkError "store down")). reflexivity.
Defined.

(** ** More on the biller *)

Section BillerMore.
Context {T : Type}.
Implicit Types kv : Kv T.

(** The ways a charge can go. *)
Lemma chargeUser_store userId amount kv :
  let key := "user:" +:+ userId in
  let kv1 := kv_attempted (KvGet key) kv in
  (chargeUser userId amount kv).2 = kv1
  \/ (chargeUser userId amount kv).2 = kv_attempted (KvSet key None) kv1
  \/ exists user, kv_users kv !! key = Some user /\ balance user >= amount
                  /\ (chargeUser userId amount kv).2
                     = with_user key (with_balance user (balance user - amount)) kv1.
Proof.
  intros key kv1. unfold chargeUser, getUserByToken, kv_get. fold key.
  destruct (kv_fault kv (kv_log kv) (KvGet key)) as [e |]; [now left |].
  cbn [fam_read Users]. fold kv1.
  destruct (kv_users kv !! key) as [user |] eqn:Huser; [| now left].
  cbn [negb truthy truthy_user]. cbv iota.
  destruct (balance user <? amount) eqn:Hbal; [now left |].
  right. unfold kv_set.
  destruct (kv_fault kv1 (kv_log kv1) (KvSet key None)) as [e |]; [now left |].
  right. exists user. split; [done |]. split; [lia | reflexivity].
Qed.

End BillerMore.

(** X11: a charge touches one account and never makes a balance negative.
    Whatever the amount and whether or not the store throws, [chargeUser]
    leaves the rate-limit records, the cache and every other account as
    they were; and if no stored balance is negative before the charge, none
    is negative after it. *)
Theorem chargeUser_frame (T : Type) (userId : string) (amount : Z) (kv : Kv T) :
  let kv' := (chargeUser userId amount kv).2 in
  kv_ratelimits kv' = kv_ratelimits kv /\ kv_cache kv' = kv_cache kv
  /\ kv_fault kv' = kv_fault kv
  /\ (forall key, key <> "user:" +:+ userId -> kv_users kv' !! key = kv_users kv !! key)
  /\ (balances_non_negative (kv_users kv) -> balances_non_negative (kv_users kv')).
Proof.
  destruct (chargeUser_store userId amount kv) as [-> | [-> | (user & Huser & Hbal & ->)]];
    cbn [snd]; repeat split; try done.
  - intros key Hkey. simpl. now apply lookup_insert_ne.
  - intros Hinv key u. simpl.
    destruct (decide (key = "user:" +:+ userId)) as [-> | Hne].
    + rewrite lookup_insert_eq. intros [= <-]. simpl. lia.
    + rewrite lookup_insert_ne by done. apply Hinv.
Qed.

Lemma chargeUser_frame_witness :
  balances_non_negative (kv_users (chargeUser "tok" 7 (account_kv "tok" 20)).2).
Proof.
  apply (chargeUser_frame string "tok" 7 (account_kv "tok" 20)).
  intros key user Hlookup. simpl in Hlookup.
  apply lookup_singleton_Some in Hlookup as [_ <-]. simpl. lia.
Defined.

(** ** Paying requests, end to end *)

Section PayingRequests.
Context `{Collator}.

Lemma parseRequestData_bearer request token :
  header_authorization request = Some ("Bearer " +:+ token) -> token <> "" ->
  authToken (parseRequestData request) = Some token.
Proof.
  intros Hh Hne. unfold parseRequestData. cbn [authToken]. rewrite Hh.
  cbn [fmap option_fmap option_map].
  rewrite (replace_first_prefix "Bearer " "" token), append_nil_l.
  now destruct token.
Qed.

Lemma determineUserState_paying {T} requestData (kv : Kv T) token user :
  authToken requestData = Some token -> token <> "" ->
  kv_fault kv (kv_log kv) (KvGet ("user:" +:+ token)) = None ->
  kv_users kv !! ("user:" +:+ token) = Some user -> 0 < balance user ->
  determineUserState requestData kv
  = (authenticated user, kv_attempted (KvGet ("user:" +:+ token)) kv).
Proof.
  intros Htok Hne Hf Huser Hbal. unfold determineUserState. rewrite Htok.
  assert (Htruthy : truthy token = true) by (now destruct token).
  rewrite Htruthy. cbn [negb]. cbv iota.
  rewrite getUserByToken_ok by done. rewrite Huser. cbn [negb truthy truthy_user].
  cbv iota. destruct (balance user <=? 0) eqn:E; [lia | done].
Qed.

(** A request that bears the token of an account with a positive balance
    goes to the charge without any rate-limit operation, and then throws. *)
Lemma paying_request_reaches_billing config kv env now request token user :
  method request <> "OPTIONS" ->
  header_authorization request = Some ("Bearer " +:+ token) -> token <> "" ->
  not_cached config kv request -> reliable kv ->
  kv_users kv !! ("user:" +:+ token) = Some user -> 0 < balance user ->
  let cacheKey := cache_key_of config request in
  let kv1 := kv_attempted (KvGet ("user:" +:+ token)) (kv_attempted (KvGet cacheKey) kv) in
  handleRequest config kv env now request
  = (threw (not_a_function "exhaustive"),
     (chargeUser (access_token user) (priceCredit config) kv1).2).
Proof.
  intros Hm Hh Hne Hc Hrel Huser Hbal cacheKey kv1.
  rewrite handleRequest_not_cached by done. fold cacheKey.
  unfold afterCacheMiss.
  rewrite (determineUserState_paying _ _ token user);
    [| now apply parseRequestData_bearer | done | apply Hrel | exact Huser | done].
  fold kv1. cbn [checkRateLimit].
  destruct (balance user >? 0) eqn:E; [| lia]. cbn [chargeStep]. now rewrite E.
Qed.

(** X12: what a paying request costs, and what it gets.  A request that is
    not served from the cache and bears the token of an account with a
    positive balance, stored under that token, on a store that does not
    throw: no rate-limit record is read or written; if the balance covers
    [priceCredit], the account is debited by exactly [priceCredit]; if the
    balance is below [priceCredit], nothing is written.  In both cases the
    call then throws at the match on the user state: the request that was
    paid for is not answered. *)
Theorem paying_request_is_charged_and_fails (config : Config) (kv : Kv string)
        (env : gmap string string) (now : Z) (request : Request) (token : string)
        (user : StripeUser) :
  let cacheKey := cache_key_of config request in
  let userKey := "user:" +:+ token in
  let kv1 :=
    kv_attempted (KvGet userKey) (kv_attempted (KvGet userKey)
                                    (kv_attempted (KvGet cacheKey) kv)) in
  method request <> "OPTIONS" ->
  header_authorization request = Some ("Bearer " +:+ token) -> token <> "" ->
  not_cached config kv request -> reliable kv ->
  kv_users kv !! userKey = Some user -> access_token user = token ->
  0 < balance user ->
  (priceCredit config <= balance user ->
   let charged := with_balance user (balance user - priceCredit config) in
   handleRequest config kv env now request
   = (threw (not_a_function "exhaustive"), with_user userKey charged kv1))
  /\ (balance user < priceCredit config ->
      handleRequest config kv env now request
      = (threw (not_a_function "exhaustive"), kv1)).
Proof.
  intros cacheKey userKey kv1 Hm Hh Hne Hc Hrel Huser Htoken Hbal.
  rewrite (paying_request_reaches_billing config kv env now request token user)
    by done.
  rewrite Htoken. fold userKey. fold cacheKey.
  set (kv0 := kv_attempted (KvGet userKey) (kv_attempted (KvGet cacheKey) kv)).
  assert (Hrel0 : reliable kv0) by (do 2 apply reliable_attempted; exact Hrel).
  split.
  - intros Hprice charged.
    rewrite (chargeUser_sufficient token (priceCredit config) kv0 user);
      [reflexivity | apply Hrel0 | exact Huser | lia | apply Hrel0].
  - intros Hprice.
    rewrite (chargeUser_insufficient token (priceCredit config) kv0 user);
      [reflexivity | apply Hrel0 | exact Huser | lia].
Qed.

Lemma determineUserState_keeps_cache {T} requestData (kv : Kv T) :
  kv_cache (determineUserState requestData kv).2 = kv_cache kv.
Proof.
  unfold determineUserState.
  destruct (authToken requestData) as [token |]; [| reflexivity].
  destruct (negb (truthy token)); [reflexivity |].
  unfold getUserByToken, kv_get.
  destruct (kv_fault kv (kv_log kv) _); [reflexivity |].
  cbn [fam_read Users].
  destruct (kv_users kv !! _) as [user |]; [| reflexivity].
  cbn [negb truthy truthy_user orb isErr]. cbv iota.
  now destruct (balance user <=? 0).
Qed.

Lemma checkRateLimit_keeps_cache {T} config now userState (kv : Kv T) :
  kv_cache (checkRateLimit config now userState kv).2 = kv_cache kv.
Proof.
  destruct userState as [clientId | user | user]; cbn [checkRateLimit].
  - apply checkFreeRateLimit_frame.
  - destruct (balance user >? 0); [done | apply checkFreeRateLimit_frame].
  - apply checkFreeRateLimit_frame.
Qed.

Lemma chargeStep_keeps_cache config userState (kv : Kv string) :
  kv_cache (chargeStep config userState kv) = kv_cache kv.
Proof.
  destruct userState as [clientId | user | user]; cbn [chargeStep]; try reflexivity.
  destruct (balance user >? 0); [| reflexivity].
  destruct (chargeUser_store (access_token user) (priceCredit config) kv)
    as [-> | [-> | (u & _ & _ & ->)]]; reflexivity.
Qed.

Lemma afterCacheMiss_keeps_cache config env now request requestData format cacheKey
      (kv : Kv string) :
  kv_cache (afterCacheMiss config env now request requestData format cacheKey kv).2
  = kv_cache kv.
Proof.
  unfold afterCacheMiss.
  pose proof (determineUserState_keeps_cache requestData kv) as H1.
  destruct (determineUserState requestData kv) as [userState kv1]. cbn [snd] in H1.
  pose proof (checkRateLimit_keeps_cache config now userState kv1) as H2.
  destruct (checkRateLimit config now userState kv1) as [[[n | r] | e] kv2];
    cbn [snd] in *; try congruence.
  rewrite chargeStep_keeps_cache. congruence.
Qed.

(** X5: [handleRequest] never fills the cache.  Whatever the request and the
    store, the cache entries after the call are those before it: the one
    cache write of the function comes after its throw.  So a request that the
    cache does not serve is not served by it after any other request
    either. *)
Theorem handleRequest_never_fills_the_cache (config : Config) (kv : Kv string)
        (env : gmap string string) (now : Z) (request : Request) :
  kv_cache (handleRequest config kv env now request).2 = kv_cache kv
  /\ forall other, not_cached config kv other <->
                   not_cached config (handleRequest config kv env now request).2 other.
Proof.
  assert (E : kv_cache (handleRequest config kv env now request).2 = kv_cache kv).
  { unfold handleRequest. destruct (String.eqb (method request) "OPTIONS"); [reflexivity |].
    cbv zeta.
    pose proof (getFromCache_store kv
                  (createCacheKey config (pathname (parseRequestData request))
                     (searchParams (parseRequestData request))
                     (getResponseFormat (parseRequestData request)))) as Hstore.
    destruct (getFromCache _ kv) as [[[value |] | e] kv1]; cbn [snd] in *; subst kv1;
      try reflexivity; now rewrite afterCacheMiss_keeps_cache. }
  split; [exact E |]. intros other. unfold not_cached. now rewrite E.
Qed.

End PayingRequests.

Lemma paying_request_is_charged_and_fails_witness :
  handleRequest (H := ordinal) pricey_config (account_kv "tok" 7) ∅ 1000
    (get_request "/x" [] (Some ("Bearer " +:+ "tok")))
  = (threw (not_a_function "exhaustive"),
     with_user "user:tok" (demo_user "tok" 2)
       (kv_attempted (KvGet "user:tok")
          (kv_attempted (KvGet "user:tok")
             (kv_attempted (KvGet "cache:v1:/x::json") (account_kv "tok" 7)))))
  /\ handleRequest (H := ordinal) pricey_config (account_kv "tok" 3) ∅ 1000
       (get_request "/x" [] (Some ("Bearer " +:+ "tok")))
     = (threw (not_a_function "exhaustive"),
        kv_attempted (KvGet "user:tok")
          (kv_attempted (KvGet "user:tok")
             (kv_attempted (KvGet "cache:v1:/x::json") (account_kv "tok" 3)))).
Proof.
  split.
  - destruct (paying_request_is_charged_and_fails (H := ordinal) pricey_config
                (account_kv "tok" 7) ∅ 1000
                (get_request "/x" [] (Some ("Bearer " +:+ "tok"))) "tok"
                (demo_user "tok" 7)) as (Hpaid & _);
      [discriminate | reflexivity | discriminate | exact I | intros log op; reflexivity
      | reflexivity | reflexivity | simpl; lia |].
    apply Hpaid. simpl. lia.
  - destruct (paying_request_is_charged_and_fails (H := ordinal) pricey_config
                (account_kv "tok" 3) ∅ 1000
                (get_request "/x" [] (Some ("Bearer " +:+ "tok"))) "tok"
                (demo_user "tok" 3)) as (_ & Hshort);
      [discriminate | reflexivity | discriminate | exact I | intros log op; reflexivity
      | reflexivity | reflexivity | simpl; lia |].
    apply Hshort. simpl. lia.
Defined.

(** ** More on the markdown transform *)

Section MarkdownMore.

Lemma lazy_until_unclosed delim t :
  free_of is_star t -> lazy_until (String "*" delim) t = None.
Proof.
  unfold free_of. induction t as [| c t IH]; [done |]. simpl str_all.
  intros [Hc Ht]%andb_true_iff. apply negb_true_iff in Hc.
  unfold is_star in Hc. rewrite Ascii.eqb_sym in Hc.
  cbn [lazy_until strip_prefix]. rewrite Hc.
  destruct (is_line_terminator c); [done |]. now rewrite IH.
Qed.

Lemma star_then_text_no_strong prev t :
  free_of is_star t -> delimited "**" "strong" prev (String "*" t) = None.
Proof.
  intros Ht. unfold delimited. cbn [strip_prefix]. rewrite Ascii.eqb_refl.
  destruct t as [| c t]; [done |].
  unfold free_of in Ht. simpl in Ht. apply andb_true_iff in Ht as [Hc _].
  apply negb_true_iff in Hc. unfold is_star in Hc. rewrite Ascii.eqb_sym in Hc.
  now rewrite Hc.
Qed.

Lemma strong_stage_unclosed t :
  free_of is_star t -> replace_all (delimited "**" "strong") ("**" +:+ t) = "**" +:+ t.
Proof.
  intros Ht. unfold replace_all. rewrite !append_cons, append_nil_l.
  cbn [replace_global].
  assert (Hfirst : delimited "**" "strong" None (String "*" (String "*" t)) = None).
  { unfold delimited. cbn [strip_prefix]. rewrite !Ascii.eqb_refl.
    now rewrite lazy_until_unclosed. }
  rewrite Hfirst, star_then_text_no_strong by done.
  do 2 f_equal.
  exact (replace_global_copy _ _ _ _ (delimited_blind "*" "strong") Ht).
Qed.

Lemma em_stage_unclosed_strong t :
  free_of is_star t ->
  replace_all (delimited "*" "em") ("**" +:+ t) = "<em></em>" +:+ t.
Proof.
  intros Ht. unfold replace_all. rewrite !append_cons, append_nil_l.
  cbn [replace_global].
  assert (Hfirst : delimited "*" "em" None (String "*" (String "*" t))
                   = Some ("<em></em>", 2%nat)).
  { unfold delimited. cbn [strip_prefix lazy_until]. now rewrite !Ascii.eqb_refl. }
  rewrite Hfirst. cbn [Nat.pred replace_global].
  now rewrite (replace_global_copy _ _ _ _ (delimited_blind "" "em") Ht).
Qed.

End MarkdownMore.

(** X14: a line that is no heading and has no asterisk is left as it is.
    For text [s] of one line without asterisk that does not begin with "# ",
    "## " or "### ", [markdownToHtml s = s]; so a hash inside a line, a hash
    without a following space, and four or more hashes are not headings. *)
Theorem markdownToHtml_leaves_other_lines (s : string) :
  inline_text s ->
  strip_prefix "# " s = None -> strip_prefix "## " s = None ->
  strip_prefix "### " s = None ->
  markdownToHtml s = s.
Proof.
  intros Hs H1 H2 H3. pose proof Hs as [Hstar Hline]. unfold markdownToHtml.
  rewrite (heading_stage_line "# " "h1" s) by done.
  rewrite (heading_stage_line "## " "h2" s) by done.
  rewrite (heading_stage_line "### " "h3" s) by done.
  now apply inline_stages.
Qed.

Lemma markdownToHtml_leaves_other_lines_witness :
  markdownToHtml "#### Deep" = "#### Deep"
  /\ markdownToHtml "#Title" = "#Title"
  /\ markdownToHtml "a # b" = "a # b".
Proof.
  split; [| split]; apply markdownToHtml_leaves_other_lines;
    reflexivity || (split; reflexivity).
Defined.

(** X15: an opening double asterisk that is never closed becomes an empty
    emphasis.  For text [t] of one line without asterisk,
    [markdownToHtml] turns "**" followed by [t] into [<em></em>] followed by
    [t]: the strong pattern finds no closing pair, and the emphasis pattern
    then matches the two asterisks with nothing between them. *)
Theorem markdownToHtml_unclosed_strong (t : string) :
  inline_text t -> markdownToHtml ("**" +:+ t) = "<em></em>" +:+ t.
Proof.
  intros [Hstar Hline]. unfold markdownToHtml.
  assert (Hl : free_of is_line_terminator ("**" +:+ t)) by now apply free_of_append.
  rewrite (heading_stage_line "# " "h1" ("**" +:+ t)) by done.
  rewrite (heading_stage_line "## " "h2" ("**" +:+ t)) by done.
  rewrite (heading_stage_line "### " "h3" ("**" +:+ t)) by done.
  rewrite strong_stage_unclosed, em_stage_unclosed_strong by done.
  apply newline_stage_blind, free_of_newline. now apply free_of_append.
Qed.

Lemma markdownToHtml_unclosed_strong_witness :
  markdownToHtml ("**" +:+ "bold") = "<em></em>" +:+ "bold".
Proof. apply markdownToHtml_unclosed_strong. split; reflexivity. Defined.

(** ** More on the cache key *)

Section CacheKeyMore.
Context `{Collator}.

Lemma append_inj_r (a b c : string) : a +:+ c = b +:+ c -> a = b.
Proof.
  intros E.
  assert (Hlen : String.length a = String.length b).
  { apply (f_equal String.length) in E. rewrite !length_append in E. lia. }
  revert b E Hlen. induction a as [| x a IH]; intros [| y b] E Hlen; try discriminate.
  - reflexivity.
  - rewrite !append_cons in E. injection E as -> E. f_equal. apply IH; [done |].
    simpl in Hlen. lia.
Qed.

Lemma format_name_inj f1 f2 : format_name f1 = format_name f2 -> f1 = f2.
Proof. destruct f1, f2; (reflexivity || discriminate). Qed.

(** X16: the cache key does not tell a value that contains the separators
    from two parameters.  When [k1] does not sort after [k2], the single
    parameter [k1] with the value [v1&k2=v2] and the two parameters
    [k1=v1], [k2=v2] give the same key for the same version, path and format:
    two different queries share one cache entry. *)
Theorem createCacheKey_separator_collision (config : Config) (pathname : string)
        (format : ResponseFormat) (k1 v1 k2 v2 : string) :
  localeCompare k1 k2 <= 0 ->
  createCacheKey config pathname [(k1, v1 +:+ "&" +:+ k2 +:+ "=" +:+ v2)] format
  = createCacheKey config pathname [(k1, v1); (k2, v2)] format.
Proof.
  intros Hle. unfold createCacheKey. cbn [sort foldr sort_insert fst].
  destruct (localeCompare k1 k2 <=? 0) eqn:E; [| lia].
  cbn [map join]. do 5 f_equal. now rewrite !append_assoc.
Qed.

(** X17: the key keeps formats and versions apart.  For the same path and
    parameters, two different formats never give the same key, and neither
    do two configurations whose versions differ: raising the version
    abandons every entry cached before. *)
Theorem createCacheKey_separates (config config' : Config) (pathname : string)
        (params : list (string * string)) (format format' : ResponseFormat) :
  (createCacheKey config pathname params format
   = createCacheKey config pathname params format' -> format = format')
  /\ (createCacheKey config pathname params format
      = createCacheKey config' pathname params format ->
      version config = version config').
Proof.
  unfold createCacheKey. split; intros E.
  - do 7 apply append_inj_l in E. now apply format_name_inj.
  - apply append_inj_l, append_inj_r in E. now apply pretty_Z_inj in E.
Qed.

End CacheKeyMore.

Lemma createCacheKey_separator_collision_witness :
  createCacheKey (H := ordinal) (demo_config 2 None) "/x"
    [("a", "1" +:+ "&" +:+ "b" +:+ "=" +:+ "2")] json
  = createCacheKey (H := ordinal) (demo_config 2 None) "/x" [("a", "1"); ("b", "2")] json.
Proof.
  apply (createCacheKey_separator_collision (H := ordinal) (demo_config 2 None) "/x" json
           "a" "1" "b" "2").
  vm_compute. discriminate.
Defined.

(** * The in-memory store of the unit tests

    [class MockKV] of tests/test_unit.ts stands in for [Deno.Kv]: a map from
    the serialized key to the value and its deadline.  Unlike the store above
    it does model expiry.  [Date.now()] is the argument [now]. *)

Module MockKV.

(** [JSON.stringify] of a key is the platform's; it is taken as given. *)
Class Stringify (Key : Type) := stringify : Key -> string.

Section Model.
Context {Key V : Type} `{Stringify Key}.

(** An entry of [this.data]; [expireTime] is [None] for undefined. *)
Record Entry := mkEntry { value : V; expireTime : option Z }.

(** The type of [this.data]. *)
Abbreviation Data := (gmap string Entry).

(** [Deno.KvEntryMaybe<T>]: the value and the versionstamp are null for an
    absent entry. *)
Record KvEntryMaybe := mkKvEntryMaybe {
  entry_key : Key;
  entry_value : option V;
  entry_versionstamp : option string
}.

Record KvCommitResult := mkKvCommitResult {
  commit_ok : bool;
  commit_versionstamp : string
}.

Record SetOptions := mkSetOptions { expireIn : option Z }.

Definition absent (key : Key) : KvEntryMaybe := mkKvEntryMaybe key None None.

Definition get (key : Key) (now : Z) (data : Data) : KvEntryMaybe * Data :=
  let keyStr := stringify key in
  match data !! keyStr with
  | None => (absent key, data)
  | Some entry =>
      if truthy (expireTime entry) && (default 0 (expireTime entry) <? now)
      then (absent key, delete keyStr data)
      else (mkKvEntryMaybe key (Some (value entry)) (Some "mockstamp"), data)
  end.

Definition set (key : Key) (v : V) (options : option SetOptions) (now : Z)
           (data : Data) : KvCommitResult * Data :=
  let keyStr := stringify key in
  let requested := options ≫= expireIn in
  let expireTime :=
    if truthy requested then Some (now + default 0 requested) else None in
  (mkKvCommitResult true "mockstamp", <[keyStr := mkEntry v expireTime]> data).

(** The map after a run of reads, each of a key at a time. *)
Definition reads (rs : list (Key * Z)) (data : Data) : Data :=
  foldl (fun d r => (get r.1 r.2 d).2) data rs.

End Model.

Arguments Entry : clear implicits.

Abbreviation Data V := (gmap string (Entry V)).

(** A serializer for keys of one string whose text needs no escape, as the
    keys of the tests are. *)
Definition stringify_plain : Stringify string :=
  fun key => "[" +:+ dquote +:+ key +:+ dquote +:+ "]".

End MockKV.

Section MockKVFacts.
Context {Key V : Type} `{MockKV.Stringify Key}.
Implicit Types (data : MockKV.Data V) (key : Key) (entry : MockKV.Entry V).

Lemma mock_get_lookup key now data k :
  (MockKV.get key now data).2 !! k = data !! k
  \/ ((MockKV.get key now data).2 !! k = None
      /\ MockKV.stringify key = k
      /\ exists entry deadline,
           data !! k = Some entry /\ MockKV.expireTime entry = Some deadline
           /\ deadline <> 0 /\ deadline < now).
Proof.
  unfold MockKV.get. cbv zeta.
  destruct (data !! MockKV.stringify key) as [entry |] eqn:E; [| now left].
  destruct (MockKV.expireTime entry) as [deadline |] eqn:Ed; [| now left].
  unfold truthy, truthy_nullable, truthy, truthy_number. cbn [default from_option]. unfold id.
  destruct (deadline =? 0) eqn:Ez; cbn [negb andb]; [now left |].
  destruct (deadline <? now) eqn:El; cbn [snd]; [| now left].
  destruct (decide (MockKV.stringify key = k)) as [<- | Hne].
  - right. rewrite lookup_delete_eq. split; [reflexivity |]. split; [reflexivity |].
    exists entry, deadline. repeat split; [done | done | lia | lia].
  - left. now rewrite lookup_delete_ne.
Qed.

Lemma mock_reads_absent rs data k :
  data !! k = None -> MockKV.reads rs data !! k = None.
Proof.
  revert data. induction rs as [| [key now] rs IH]; intros data E; [exact E |].
  cbn [MockKV.reads foldl fst snd]. apply IH.
  destruct (mock_get_lookup key now data k) as [-> | [-> _]]; done.
Qed.

End MockKVFacts.

(** X18: the life of an entry of the mock store.  Written at [t0] with a
    non-zero [expireIn] (the deadline [t0 + expireIn] not being 0), the entry
    is read back, and kept, at every time up to and including the deadline;
    a read after the deadline gives null and removes the entry, after which
    every read gives null, whatever the clock says. *)
Theorem mock_entry_lifetime {Key V : Type} `{MockKV.Stringify Key}
        (key : Key) (v : V) (e t0 t : Z) (data : MockKV.Data V) :
  e <> 0 -> t0 + e <> 0 ->
  let data1 := (MockKV.set key v (Some (MockKV.mkSetOptions (Some e))) t0 data).2 in
  (t <= t0 + e ->
   MockKV.get key t data1
   = (MockKV.mkKvEntryMaybe key (Some v) (Some "mockstamp"), data1))
  /\ (t0 + e < t ->
      MockKV.get key t data1 = (MockKV.absent key, delete (MockKV.stringify key) data)
      /\ forall t', (MockKV.get key t' (MockKV.get key t data1).2).1 = MockKV.absent key).
Proof.
  intros He Hd data1. subst data1. unfold MockKV.set. cbv zeta. cbn [snd mbind option_bind].
  cbn [MockKV.expireIn].
  unfold truthy at 1, truthy_nullable, truthy, truthy_number. cbn [default from_option]. unfold id.
  destruct (e =? 0) eqn:Ez; [lia |]. cbn [negb].
  assert (Hget : forall t,
    MockKV.get key t (<[MockKV.stringify key := MockKV.mkEntry v (Some (t0 + e))]> data)
    = if t0 + e <? t then (MockKV.absent key, delete (MockKV.stringify key) data)
      else (MockKV.mkKvEntryMaybe key (Some v) (Some "mockstamp"),
            <[MockKV.stringify key := MockKV.mkEntry v (Some (t0 + e))]> data)).
  { intros s. unfold MockKV.get. cbv zeta. rewrite lookup_insert_eq.
    cbn [MockKV.expireTime MockKV.value default from_option]. unfold id.
    unfold truthy, truthy_nullable, truthy, truthy_number.
    destruct (t0 + e =? 0) eqn:Ez'; [lia |]. cbn [negb andb].
    destruct (t0 + e <? s); [| reflexivity]. now rewrite delete_insert_eq. }
  split; intros Ht; rewrite Hget.
  - destruct (t0 + e <? t) eqn:El; [lia | reflexivity].
  - destruct (t0 + e <? t) eqn:El; [| lia]. split; [reflexivity |].
    intros t'. cbn [snd]. unfold MockKV.get. cbv zeta. now rewrite lookup_delete_eq.
Qed.

Lemma mock_entry_lifetime_witness :
  let data1 := (MockKV.set (H := MockKV.stringify_plain) "user:token123" 7
                  (Some (MockKV.mkSetOptions (Some 1000))) 5000 ∅).2 in
  (6000 <= 5000 + 1000 ->
   MockKV.get (H := MockKV.stringify_plain) "user:token123" 6000 data1
   = (MockKV.mkKvEntryMaybe "user:token123" (Some 7) (Some "mockstamp"), data1))
  /\ (5000 + 1000 < 6000 ->
      MockKV.get (H := MockKV.stringify_plain) "user:token123" 6000 data1
      = (MockKV.absent "user:token123",
         delete (MockKV.stringify (Stringify := MockKV.stringify_plain) "user:token123") ∅)
      /\ forall t',
           (MockKV.get (H := MockKV.stringify_plain) "user:token123" t'
              (MockKV.get (H := MockKV.stringify_plain) "user:token123" 6000 data1).2).1
           = MockKV.absent "user:token123").
Proof.
  apply (mock_entry_lifetime (H := MockKV.stringify_plain) "user:token123" 7 1000 5000 6000 ∅);
    lia.
Defined.

(** X19: reading the mock store only ever removes entries whose deadline has
    passed.  After any run of reads an entry of the map is either still there,
    unchanged, or gone, and then one of the reads was of its key, at a time
    after its non-zero deadline.  So an entry written without [expireIn], or
    with [expireIn] 0, survives every read. *)
Theorem mock_reads_only_drop_expired {Key V : Type} `{MockKV.Stringify Key}
        (rs : list (Key * Z)) (data : MockKV.Data V) (k : string)
        (entry : MockKV.Entry V) :
  data !! k = Some entry ->
  MockKV.reads rs data !! k = Some entry
  \/ (MockKV.reads rs data !! k = None
      /\ exists key t deadline,
           In (key, t) rs /\ MockKV.stringify key = k
           /\ MockKV.expireTime entry = Some deadline
           /\ deadline <> 0 /\ deadline < t).
Proof.
  revert data. induction rs as [| [key now] rs IH]; intros data E; [now left |].
  cbn [MockKV.reads foldl fst snd].
  destruct (mock_get_lookup key now data k) as [Hsame | (Hgone & Hkey & entry' & deadline & E' & Hd & Hz & Hlt)].
  - rewrite E in Hsame. destruct (IH _ Hsame) as [Hkept | (Hnone & key' & t & deadline & Hin & Hrest)].
    + now left.
    + right. split; [exact Hnone |]. exists key', t, deadline. split; [now right | exact Hrest].
  - right. split; [now apply mock_reads_absent |].
    rewrite E in E'. injection E' as <-.
    exists key, now, deadline. repeat split; [now left | done | done | done | done].
Qed.

Lemma mock_reads_only_drop_expired_witness :
  let k := MockKV.stringify (Stringify := MockKV.stringify_plain) "a" in
  let entry := MockKV.mkEntry 7 None in
  let data : MockKV.Data Z := {[ k := entry ]} in
  let rs := [("a", 10); ("b", 20); ("a", 30)] in
  MockKV.reads (H := MockKV.stringify_plain) rs data !! k = Some entry
  \/ (MockKV.reads (H := MockKV.stringify_plain) rs data !! k = None
      /\ exists key t deadline,
           In (key, t) rs /\ MockKV.stringify (Stringify := MockKV.stringify_plain) key = k
           /\ MockKV.expireTime entry = Some deadline
           /\ deadline <> 0 /\ deadline < t).
Proof.
  intros k entry data rs.
  apply (mock_reads_only_drop_expired (H := MockKV.stringify_plain) rs data k entry).
  subst data. apply lookup_singleton_eq.
Defined.

(** * The payment webhook of the demo server

    [handlePaymentWebhook] of examples/demo_server.ts credits an account
    when the payment provider reports a purchase.  The body of the request
    is read at the types the handler's arithmetic and template strings
    expect: the identifiers as strings, the credits as an integer, each of
    them possibly missing.  The store holds the accounts under [user:ID] and
    the purchases under [transaction:ID]; as above it keeps the operations
    attempted and an oracle says which attempt throws. *)

Module Demo.

Record User := mkUser {
  id : string;
  email : string;
  name : string;
  passwordHash : string;
  balance : Z;
  created_at : string;
  polar_customer_id : option string
}.

(** [{ ...user, balance }] *)
Definition with_balance (user : User) (b : Z) : User :=
  mkUser (id user) (email user) (name user) (passwordHash user) b (created_at user)
         (polar_customer_id user).

(** The record written under [transaction:ID]. *)
Record Transaction := mkTransaction {
  user_id : string;
  credits : Z;
  transaction_id : string;
  timestamp : string;
  type : string
}.

(** The parsed body of the request. *)
Record WebhookBody := mkWebhookBody {
  body_user_id : option string;
  body_credits : option Z;
  body_transaction_id : option string
}.

Record Kv := mkKv {
  users : gmap string User;
  transactions : gmap string Transaction;
  log : list KvOp;
  fault : list KvOp -> KvOp -> option Error
}.

Definition attempted (op : KvOp) (kv : Kv) : Kv :=
  mkKv (users kv) (transactions kv) (log kv ++ [op])%list (fault kv).

(** [await context.kv.get([key])] at an account. *)
Definition get_user (key : string) (kv : Kv) : Result (option User) * Kv :=
  let op := KvGet key in
  match fault kv (log kv) op with
  | Some e => (err e, attempted op kv)
  | None => (ok (users kv !! key), attempted op kv)
  end.

(** [await context.kv.set([key], user)] *)
Definition set_user (key : string) (user : User) (kv : Kv) : Result unit * Kv :=
  let op := KvSet key None in
  match fault kv (log kv) op with
  | Some e => (err e, attempted op kv)
  | None =>
      (ok tt, attempted op (mkKv (<[key := user]> (users kv)) (transactions kv) (log kv) (fault kv)))
  end.

(** [await context.kv.set([key], transaction)] *)
Definition set_transaction (key : string) (t : Transaction) (kv : Kv) : Result unit * Kv :=
  let op := KvSet key None in
  match fault kv (log kv) op with
  | Some e => (err e, attempted op kv)
  | None =>
      (ok tt, attempted op (mkKv (users kv) (<[key := t]> (transactions kv)) (log kv) (fault kv)))
  end.

(** The JSON bodies the handler answers with. *)
Inductive Payload :=
  | ErrorPayload (error message : string) (status : Z)
  | SuccessPayload (message : string).

Record JsonResponse := mkJsonResponse {
  status : Z;
  payload : Payload;
  headers : list (string * string)
}.

Definition corsHeaders : list (string * string) :=
  [("Access-Control-Allow-Origin", "*");
   ("Access-Control-Allow-Methods", "GET, POST, PUT, DELETE, OPTIONS");
   ("Access-Control-Allow-Headers", "Content-Type, Authorization")].

Definition respond (p : Payload) (s : Z) : JsonResponse :=
  mkJsonResponse s p (("Content-Type", "application/json") :: corsHeaders).

(** The answer of the catch block. *)
Definition failed : JsonResponse :=
  respond (ErrorPayload "Internal Server Error" "Failed to process payment" 500) 500.

Definition invalid : JsonResponse :=
  respond (ErrorPayload "Invalid Webhook Data"
             "user_id, credits, and transaction_id are required" 400) 400.

Definition not_found : JsonResponse :=
  respond (ErrorPayload "User Not Found" "User does not exist" 404) 404.

Definition processed : JsonResponse :=
  respond (SuccessPayload "Payment processed successfully") 200.

(** [json] is the outcome of [await request.json()], which throws on a body
    that does not parse; [now] is [new Date().toISOString()]. *)
Definition handlePaymentWebhook (json : Result WebhookBody) (now : string) (kv : Kv)
  : JsonResponse * Kv :=
  match json with
  | err _ => (failed, kv)
  | ok body =>
      let user_id := body_user_id body in
      let credits := body_credits body in
      let transaction_id := body_transaction_id body in
      if negb (truthy user_id) || negb (truthy credits) || negb (truthy transaction_id)
      then (invalid, kv)
      else
        match user_id, credits, transaction_id with
        | Some user_id, Some credits, Some transaction_id =>
            match get_user ("user:" +:+ user_id) kv with
            | (err _, kv1) => (failed, kv1)
            | (ok None, kv1) => (not_found, kv1)
            | (ok (Some user), kv1) =>
                let updatedUser := with_balance user (balance user + credits) in
                match set_user ("user:" +:+ user_id) updatedUser kv1 with
                | (err _, kv2) => (failed, kv2)
                | (ok _, kv2) =>
                    match set_transaction ("transaction:" +:+ transaction_id)
                            (mkTransaction user_id credits transaction_id now
                               "credit_purchase") kv2 with
                    | (err _, kv3) => (failed, kv3)
                    | (ok _, kv3) => (processed, kv3)
                    end
                end
            end
        | _, _, _ => (invalid, kv)
        end
  end.

(** A store none of whose operations ever throws. *)
Definition reliable (kv : Kv) : Prop := forall l op, fault kv l op = None.

(** A purchase report with every field present. *)
Definition purchase (user_id : string) (credits : Z) (transaction_id : string)
  : Result WebhookBody :=
  ok (mkWebhookBody (Some user_id) (Some credits) (Some transaction_id)).

(** Examples: an account and stores holding it. *)
Definition demo_account (b : Z) : User :=
  mkUser "u1" "u1@example.com" "User One" "hash" b "2024-01-01T00:00:00.000Z" None.

Definition demo_store (b : Z) (f : list KvOp -> KvOp -> option Error) : Kv :=
  mkKv {[ "user:u1" := demo_account b ]} ∅ [] f.

(** The store after an accepted purchase. *)
Definition credited (uid : string) (c : Z) (tid now : string) (user : User) (kv : Kv) : Kv :=
  mkKv
    (<["user:" +:+ uid := with_balance user (balance user + c)]> (users kv))
    (<["transaction:" +:+ tid := mkTransaction uid c tid now "credit_purchase"]>
       (transactions kv))
    (((log kv ++ [KvGet ("user:" +:+ uid)]) ++ [KvSet ("user:" +:+ uid) None])
       ++ [KvSet ("transaction:" +:+ tid) None])%list
    (fault kv).

End Demo.

(** ** The payment webhook *)

Section WebhookFacts.
Implicit Types (kv : Demo.Kv) (user : Demo.User) (json : Result Demo.WebhookBody).

Lemma truthy_present_string (s : string) : s <> "" -> truthy (Some s) = true.
Proof. now destruct s. Qed.

Lemma truthy_present_number (n : Z) : n <> 0 -> truthy (Some n) = true.
Proof.
  intros Hn. unfold truthy, truthy_nullable, truthy, truthy_number.
  destruct (n =? 0) eqn:E; [lia | reflexivity].
Qed.

Lemma handlePaymentWebhook_accepted kv uid c tid now user :
  Demo.reliable kv -> uid <> "" -> c <> 0 -> tid <> "" ->
  Demo.users kv !! ("user:" +:+ uid) = Some user ->
  Demo.handlePaymentWebhook (Demo.purchase uid c tid) now kv
  = (Demo.processed, Demo.credited uid c tid now user kv).
Proof.
  intros Hrel Hu Hc Ht Huser.
  unfold Demo.handlePaymentWebhook, Demo.purchase.
  cbn [Demo.body_user_id Demo.body_credits Demo.body_transaction_id]. cbv zeta.
  rewrite (truthy_present_string uid Hu), (truthy_present_string tid Ht),
    (truthy_present_number c Hc). cbn [negb orb].
  unfold Demo.get_user. cbv zeta. rewrite Hrel, Huser.
  unfold Demo.set_user. cbv zeta. cbn [Demo.fault Demo.attempted Demo.log]. rewrite Hrel.
  unfold Demo.set_transaction. cbv zeta.
  cbn [Demo.fault Demo.attempted Demo.log Demo.users Demo.transactions]. rewrite Hrel.
  reflexivity.
Qed.

Lemma credited_reliable uid c tid now user kv :
  Demo.reliable kv -> Demo.reliable (Demo.credited uid c tid now user kv).
Proof. intros Hrel l op. apply Hrel. Qed.

End WebhookFacts.

(** X20: an accepted purchase credits exactly the named account.  On a store
    that does not fail, a report with a non-empty [user_id], non-zero
    [credits] (of either sign) and a non-empty [transaction_id], for an
    account that exists, is answered 200; the balance of that account grows
    by [credits], no other account changes, and the purchase is recorded under
    [transaction:ID], no other record changing. *)
Theorem webhook_credits_the_account (kv : Demo.Kv) (uid : string) (c : Z)
        (tid now : string) (user : Demo.User) :
  Demo.reliable kv -> uid <> "" -> c <> 0 -> tid <> "" ->
  Demo.users kv !! ("user:" +:+ uid) = Some user ->
  let r := Demo.handlePaymentWebhook (Demo.purchase uid c tid) now kv in
  Demo.status r.1 = 200
  /\ Demo.users r.2 !! ("user:" +:+ uid)
     = Some (Demo.with_balance user (Demo.balance user + c))
  /\ (forall k, k <> "user:" +:+ uid -> Demo.users r.2 !! k = Demo.users kv !! k)
  /\ Demo.transactions r.2 !! ("transaction:" +:+ tid)
     = Some (Demo.mkTransaction uid c tid now "credit_purchase")
  /\ (forall k, k <> "transaction:" +:+ tid ->
                Demo.transactions r.2 !! k = Demo.transactions kv !! k).
Proof.
  intros Hrel Hu Hc Ht Huser r. subst r.
  rewrite (handlePaymentWebhook_accepted kv uid c tid now user Hrel Hu Hc Ht Huser).
  cbn [fst snd Demo.credited Demo.users Demo.transactions].
  split; [reflexivity |]. split; [apply lookup_insert_eq |].
  split; [intros k Hk; now apply lookup_insert_ne |].
  split; [apply lookup_insert_eq |]. intros k Hk. now apply lookup_insert_ne.
Qed.

Lemma webhook_credits_the_account_witness :
  let kv := Demo.demo_store 10 no_fault in
  let r := Demo.handlePaymentWebhook (Demo.purchase "u1" 5 "t1") "2024-02-02T00:00:00.000Z" kv in
  Demo.status r.1 = 200
  /\ Demo.users r.2 !! ("user:" +:+ "u1")
     = Some (Demo.with_balance (Demo.demo_account 10) (Demo.balance (Demo.demo_account 10) + 5))
  /\ (forall k, k <> "user:" +:+ "u1" -> Demo.users r.2 !! k = Demo.users kv !! k)
  /\ Demo.transactions r.2 !! ("transaction:" +:+ "t1")
     = Some (Demo.mkTransaction "u1" 5 "t1" "2024-02-02T00:00:00.000Z" "credit_purchase")
  /\ (forall k, k <> "transaction:" +:+ "t1" ->
                Demo.transactions r.2 !! k = Demo.transactions kv !! k).
Proof.
  apply (webhook_credits_the_account (Demo.demo_store 10 no_fault) "u1" 5 "t1"
           "2024-02-02T00:00:00.000Z" (Demo.demo_account 10)).
  - intros l op. reflexivity.
  - discriminate.
  - lia.
  - discriminate.
  - vm_compute. reflexivity.
Defined.

(** X21: the webhook does not recognise a purchase it has already processed.
    The same report delivered twice is answered 200 both times and credits
    the account twice, while the purchases hold a single record for it, that
    of the second delivery. *)
Theorem webhook_replay_credits_twice (kv : Demo.Kv) (uid : string) (c : Z)
        (tid now1 now2 : string) (user : Demo.User) :
  Demo.reliable kv -> uid <> "" -> c <> 0 -> tid <> "" ->
  Demo.users kv !! ("user:" +:+ uid) = Some user ->
  let kv1 := (Demo.handlePaymentWebhook (Demo.purchase uid c tid) now1 kv).2 in
  let r := Demo.handlePaymentWebhook (Demo.purchase uid c tid) now2 kv1 in
  Demo.status r.1 = 200
  /\ Demo.balance <$> Demo.users r.2 !! ("user:" +:+ uid) = Some (Demo.balance user + c + c)
  /\ Demo.transactions r.2
     = <["transaction:" +:+ tid := Demo.mkTransaction uid c tid now2 "credit_purchase"]>
         (Demo.transactions kv).
Proof.
  intros Hrel Hu Hc Ht Huser kv1 r. subst r kv1.
  rewrite (handlePaymentWebhook_accepted kv uid c tid now1 user Hrel Hu Hc Ht Huser).
  cbn [snd].
  rewrite (handlePaymentWebhook_accepted _ uid c tid now2
             (Demo.with_balance user (Demo.balance user + c))
             (credited_reliable uid c tid now1 user kv Hrel) Hu Hc Ht).
  2: { cbn [Demo.credited Demo.users]. apply lookup_insert_eq. }
  cbn [fst snd Demo.credited Demo.users Demo.transactions].
  split; [reflexivity |]. split.
  - rewrite lookup_insert_eq. reflexivity.
  - apply insert_insert_eq.
Qed.

Lemma webhook_replay_credits_twice_witness :
  let kv := Demo.demo_store 10 no_fault in
  let kv1 := (Demo.handlePaymentWebhook (Demo.purchase "u1" 5 "t1") "first" kv).2 in
  let r := Demo.handlePaymentWebhook (Demo.purchase "u1" 5 "t1") "second" kv1 in
  Demo.status r.1 = 200
  /\ Demo.balance <$> Demo.users r.2 !! ("user:" +:+ "u1")
     = Some (Demo.balance (Demo.demo_account 10) + 5 + 5)
  /\ Demo.transactions r.2
     = <["transaction:" +:+ "t1" := Demo.mkTransaction "u1" 5 "t1" "second" "credit_purchase"]>
         (Demo.transactions kv).
Proof.
  apply (webhook_replay_credits_twice (Demo.demo_store 10 no_fault) "u1" 5 "t1"
           "first" "second" (Demo.demo_account 10)).
  - intros l op. reflexivity.
  - discriminate.
  - lia.
  - discriminate.
  - vm_compute. reflexivity.
Defined.

(** X22: the credit is not undone when recording the purchase fails.  If the
    read and the write of the account succeed and the write of the
    transaction record throws, the webhook answers 500, yet the account keeps
    the credit and no purchase is recorded. *)
Theorem webhook_log_failure_keeps_credit (kv : Demo.Kv) (uid : string) (c : Z)
        (tid now : string) (user : Demo.User) (e : Error) :
  uid <> "" -> c <> 0 -> tid <> "" ->
  Demo.users kv !! ("user:" +:+ uid) = Some user ->
  Demo.fault kv (Demo.log kv) (KvGet ("user:" +:+ uid)) = None ->
  Demo.fault kv (Demo.log kv ++ [KvGet ("user:" +:+ uid)])%list
    (KvSet ("user:" +:+ uid) None) = None ->
  Demo.fault kv ((Demo.log kv ++ [KvGet ("user:" +:+ uid)])
                   ++ [KvSet ("user:" +:+ uid) None])%list
    (KvSet ("transaction:" +:+ tid) None) = Some e ->
  let r := Demo.handlePaymentWebhook (Demo.purchase uid c tid) now kv in
  Demo.status r.1 = 500
  /\ Demo.users r.2 !! ("user:" +:+ uid)
     = Some (Demo.with_balance user (Demo.balance user + c))
  /\ Demo.transactions r.2 = Demo.transactions kv.
Proof.
  intros Hu Hc Ht Huser Hget Hset Hlog r. subst r.
  unfold Demo.handlePaymentWebhook, Demo.purchase.
  cbn [Demo.body_user_id Demo.body_credits Demo.body_transaction_id]. cbv zeta.
  rewrite (truthy_present_string uid Hu), (truthy_present_string tid Ht),
    (truthy_present_number c Hc). cbn [negb orb].
  unfold Demo.get_user. cbv zeta. rewrite Hget, Huser.
  unfold Demo.set_user. cbv zeta. cbn [Demo.fault Demo.attempted Demo.log]. rewrite Hset.
  unfold Demo.set_transaction. cbv zeta.
  cbn [Demo.fault Demo.attempted Demo.log Demo.users Demo.transactions]. rewrite Hlog.
  cbn [fst snd Demo.users Demo.transactions Demo.attempted].
  split; [reflexivity |]. split; [apply lookup_insert_eq | reflexivity].
Qed.

Lemma webhook_log_failure_keeps_credit_witness :
  let kv := Demo.demo_store 10 (down_on "transaction:") in
  let r := Demo.handlePaymentWebhook (Demo.purchase "u1" 5 "t1") "2024-02-02T00:00:00.000Z" kv in
  Demo.status r.1 = 500
  /\ Demo.users r.2 !! ("user:" +:+ "u1")
     = Some (Demo.with_balance (Demo.demo_account 10) (Demo.balance (Demo.demo_account 10) + 5))
  /\ Demo.transactions r.2 = Demo.transactions kv.
Proof.
  apply (webhook_log_failure_keeps_credit (Demo.demo_store 10 (down_on "transaction:"))
           "u1" 5 "t1" "2024-02-02T00:00:00.000Z" (Demo.demo_account 10)
           (mkError "store down")).
  - discriminate.
  - lia.
  - discriminate.
  - vm_compute. reflexivity.
  - vm_compute. reflexivity.
  - vm_compute. reflexivity.
  - vm_compute. reflexivity.
Defined.

(** X23: whatever the request and the store, the webhook answers 400, 404,
    500 or 200; the refusals 400 and 404 leave the accounts and the purchases
    as they were; and no account is ever touched but the one under the
    [user_id] of the body. *)
Theorem webhook_refusals_change_nothing (json : Result Demo.WebhookBody) (now : string)
        (kv : Demo.Kv) :
  let r := Demo.handlePaymentWebhook json now kv in
  (Demo.status r.1 = 400 \/ Demo.status r.1 = 404 \/ Demo.status r.1 = 500
   \/ Demo.status r.1 = 200)
  /\ (Demo.status r.1 = 400 \/ Demo.status r.1 = 404 ->
      Demo.users r.2 = Demo.users kv /\ Demo.transactions r.2 = Demo.transactions kv)
  /\ (forall k, (forall body uid, json = ok body -> Demo.body_user_id body = Some uid ->
                   k <> "user:" +:+ uid) ->
                Demo.users r.2 !! k = Demo.users kv !! k).
Proof.
  cbv zeta. unfold Demo.handlePaymentWebhook.
  destruct json as [body | e]; cbn [fst snd].
  2: { cbn. split; [tauto |]. split; [intros [? | ?]; discriminate | reflexivity]. }
  destruct (negb (truthy (Demo.body_user_id body)) || negb (truthy (Demo.body_credits body))
            || negb (truthy (Demo.body_transaction_id body))) eqn:Ev.
  { cbn. split; [tauto |]. split; [now intros _ | reflexivity]. }
  destruct (Demo.body_user_id body) as [uid |] eqn:Eu;
    destruct (Demo.body_credits body) as [c |] eqn:Ec;
    destruct (Demo.body_transaction_id body) as [tid |] eqn:Et;
    try (cbn; split; [tauto |]; split; [now intros _ | reflexivity]).
  unfold Demo.get_user. cbv zeta.
  destruct (Demo.fault kv (Demo.log kv) (KvGet ("user:" +:+ uid))) as [e |].
  { cbn. split; [tauto |]. split; [intros [? | ?]; discriminate | reflexivity]. }
  destruct (Demo.users kv !! ("user:" +:+ uid)) as [user |] eqn:Euser.
  2: { cbn. split; [tauto |]. split; [now intros _ | reflexivity]. }
  unfold Demo.set_user. cbv zeta. cbn [Demo.fault Demo.attempted Demo.log].
  destruct (Demo.fault kv _ (KvSet ("user:" +:+ uid) None)) as [e |].
  { cbn. split; [tauto |]. split; [intros [? | ?]; discriminate | reflexivity]. }
  unfold Demo.set_transaction. cbv zeta.
  cbn [Demo.fault Demo.attempted Demo.log Demo.users Demo.transactions].
  destruct (Demo.fault kv _ (KvSet ("transaction:" +:+ tid) None)) as [e |]; cbn;
    (split; [tauto |]; split; [intros [? | ?]; discriminate |]);
    intros k Hk; apply lookup_insert_ne; intros <-; now apply (Hk body uid).
Qed.

